(** * The chess session controller (src/app/chess/chess.page.ts)

    A shallow embedding of the [ChessPage] component: the session state
    held in its fields and signals, the click / drag / promotion handlers,
    the clock and the game-over logic.  The rules engine ([chess.js]) is an
    external collaborator: it is a parameter of the development, reached
    through the interface [RulesEngine].  DOM work that only concerns
    presentation (ghost images, CSS classes, canvas drawing) is left out;
    the calls that emit a cue or an effect are recorded in a log. *)

From Stdlib Require Import ZArith Bool List Ascii String Lia DecimalString.
From stdpp Require Import base strings gmap.

Local Open Scope string_scope.
Local Open Scope Z_scope.

(** ** Data *)

(** ['w' | 'b'] *)
Inductive Color := White | Black.

Definition opposite (c : Color) : Color :=
  match c with White => Black | Black => White end.

Definition Color_eqb (a b : Color) : bool :=
  match a, b with
  | White, White | Black, Black => true
  | _, _ => false
  end.

(** Squares are plain strings in the component (['e4']). *)
Abbreviation Square := string.

(** [PROMOTION_PIECES = ['q', 'r', 'b', 'n']] *)
Inductive PromotePiece := Pq | Pr | Pb | Pn.

Definition PROMOTION_PIECES : list PromotePiece := [Pq; Pr; Pb; Pn].

Inductive PieceType := Pawn | Rook | Knight | Bishop | Queen | King.

Module Piece.
Record t := mk { type : PieceType; color : Color }.
End Piece.

(** The verbose move object of the engine; [flags] is the flag string
    (['n'], ['c'], ['k'], ['np'], ...), [captured] the captured piece. *)
Module Move.
Record t := mk {
  color : Color;
  from : Square;
  to : Square;
  san : string;
  flags : string;
  captured : option PieceType;
  promotion : option PromotePiece
}.
End Move.

(** JS truthiness of a [string | null] value: [null] and [''] are falsy. *)
Definition truthy (o : option string) : bool :=
  match o with
  | Some s => negb (String.eqb s "")
  | None => false
  end.

(** [s.includes(sub)] *)
Fixpoint includes (s sub : string) : bool :=
  String.prefix sub s ||
  match s with
  | EmptyString => false
  | String _ rest => includes rest sub
  end.

(** [candidates.find(m => m.to === name)] *)
Definition find_to (name : Square) (candidates : list Move.t) : option Move.t :=
  List.find (fun m => String.eqb (Move.to m) name) candidates.

(** ** The rules engine (chess.js), as the component uses it

    Mutating calls return the new engine state next to their result.
    [None] is an [undo] with nothing to revert (the falsy result tested by
    [if (m)]), a [load] that fails (the exception caught in [loadFEN]) and
    a [move] the engine rejects.  The chess.js 1.x interface used here
    ([isCheck], [isGameOver], a [load] that throws) signals a rejected
    [move] by an exception, which no handler catches: the handler stops at
    the call and the statements after it are not run.  [onSquareClick] and
    [tryMove] pass to [move] a target the engine has just offered. *)
Class RulesEngine (Game : Type) := {
  eng_turn : Game -> Color;
  eng_get : Game -> Square -> option Piece.t;
  eng_moves : Game -> Square -> list Move.t;
  eng_move : Game -> Square -> Square -> option PromotePiece ->
             option (Move.t * Game);
  eng_move_san : Game -> string -> option (Move.t * Game);
  eng_undo : Game -> option (Move.t * Game);
  eng_reset : Game -> Game;
  eng_load : Game -> string -> option Game;
  eng_history : Game -> list string;
  eng_isCheck : Game -> bool;
  eng_isCheckmate : Game -> bool;
  eng_isStalemate : Game -> bool;
  eng_isGameOver : Game -> bool
}.

(** ** Session state *)

Inductive Reason := checkmate | stalemate | draw | time.

(** The value of the [gameOver] signal. *)
Record GameOverRec := mkGameOver {
  reason : Reason;
  message : string;
  winner : option Color
}.

(** The value of the [promotion] signal. *)
Module Promotion.
Record t := mk {
  ask : bool;
  color : option Color;
  from : option Square;
  to : option Square
}.
Definition none : t := mk false None None None.
End Promotion.

(** [touchDrag]: the drag in progress (ghost image and offsets left out). *)
Record Drag := mkDrag {
  drag_from : Square;
  startX : Z;
  startY : Z;
  moved : bool;
  currentOverSquare : option Square
}.

Inductive SoundKind :=
  | SndMove | SndCapture | SndCastle | SndCheck | SndGameover | SndIllegal.

(** What the component sends to the audio, haptic and presentation layers. *)
Inductive Effect :=
  | Vibrate (pattern : list Z)
  | Audio (kind : SoundKind)
  | Confetti
  | StopConfetti
  | CheckFlash
  | DraggingCursor (on : bool)
  | Alert (msg : string).

(** The fields and signals of [ChessPage].  [timerId] tells whether the
    clock interval is installed; [gameOverTimeoutId] holds the record that
    the pending 1500 ms timeout will publish, if one is pending; [effects]
    is the log of emitted effects, newest first. *)
Record State {Game : Type} := mkState {
  game : Game;
  redoStack : list Move.t;
  selected : option Square;
  lastMoveSquares : gset Square;
  gameOver : option GameOverRec;
  promotion : Promotion.t;
  baseMs : Z;
  incrementMs : Z;
  whiteTimeMs : Z;
  blackTimeMs : Z;
  activeColor : Color;
  running : bool;
  timerId : bool;
  gameOverTimeoutId : option GameOverRec;
  soundOn : bool;
  suppressClickUntil : Z;
  touchDrag : option Drag;
  checkFlash : bool;
  stateTick : Z;
  effects : list Effect
}.
Arguments State Game : clear implicits.
Arguments mkState {Game}.

(** Pointer and mouse events: the pressed button, whether the pointer is a
    mouse, the client coordinates, and the [data-square] found under the
    point by [squareElementAtPoint]. *)
Record PointerEv := mkPointerEv {
  button : Z;
  pointerIsMouse : bool;
  clientX : Z;
  clientY : Z;
  squareAtPoint : option Square
}.

(** One entry of [ev.touches]. *)
Record Touch := mkTouch {
  touchX : Z;
  touchY : Z;
  touchSquare : option Square
}.

Section Controller.

Context {Game : Type} {E : RulesEngine Game}.

Local Abbreviation State := (State Game).

(** *** Field updates *)

Definition with_game (v : Game) (s : State) : State :=
  mkState
    v (redoStack s) (selected s) (lastMoveSquares s) (gameOver s)
    (promotion s) (baseMs s) (incrementMs s) (whiteTimeMs s) (blackTimeMs s)
    (activeColor s) (running s) (timerId s) (gameOverTimeoutId s)
    (soundOn s) (suppressClickUntil s) (touchDrag s) (checkFlash s)
    (stateTick s) (effects s).

Definition with_redoStack (v : list Move.t) (s : State) : State :=
  mkState
    (game s) v (selected s) (lastMoveSquares s) (gameOver s) (promotion s)
    (baseMs s) (incrementMs s) (whiteTimeMs s) (blackTimeMs s)
    (activeColor s) (running s) (timerId s) (gameOverTimeoutId s)
    (soundOn s) (suppressClickUntil s) (touchDrag s) (checkFlash s)
    (stateTick s) (effects s).

Definition with_selected (v : option Square) (s : State) : State :=
  mkState
    (game s) (redoStack s) v (lastMoveSquares s) (gameOver s) (promotion s)
    (baseMs s) (incrementMs s) (whiteTimeMs s) (blackTimeMs s)
    (activeColor s) (running s) (timerId s) (gameOverTimeoutId s)
    (soundOn s) (suppressClickUntil s) (touchDrag s) (checkFlash s)
    (stateTick s) (effects s).

Definition with_lastMoveSquares (v : gset Square) (s : State) : State :=
  mkState
    (game s) (redoStack s) (selected s) v (gameOver s) (promotion s)
    (baseMs s) (incrementMs s) (whiteTimeMs s) (blackTimeMs s)
    (activeColor s) (running s) (timerId s) (gameOverTimeoutId s)
    (soundOn s) (suppressClickUntil s) (touchDrag s) (checkFlash s)
    (stateTick s) (effects s).

Definition with_gameOver (v : option GameOverRec) (s : State) : State :=
  mkState
    (game s) (redoStack s) (selected s) (lastMoveSquares s) v (promotion s)
    (baseMs s) (incrementMs s) (whiteTimeMs s) (blackTimeMs s)
    (activeColor s) (running s) (timerId s) (gameOverTimeoutId s)
    (soundOn s) (suppressClickUntil s) (touchDrag s) (checkFlash s)
    (stateTick s) (effects s).

Definition with_promotion (v : Promotion.t) (s : State) : State :=
  mkState
    (game s) (redoStack s) (selected s) (lastMoveSquares s) (gameOver s) v
    (baseMs s) (incrementMs s) (whiteTimeMs s) (blackTimeMs s)
    (activeColor s) (running s) (timerId s) (gameOverTimeoutId s)
    (soundOn s) (suppressClickUntil s) (touchDrag s) (checkFlash s)
    (stateTick s) (effects s).

Definition with_baseMs (v : Z) (s : State) : State :=
  mkState
    (game s) (redoStack s) (selected s) (lastMoveSquares s) (gameOver s)
    (promotion s) v (incrementMs s) (whiteTimeMs s) (blackTimeMs s)
    (activeColor s) (running s) (timerId s) (gameOverTimeoutId s)
    (soundOn s) (suppressClickUntil s) (touchDrag s) (checkFlash s)
    (stateTick s) (effects s).

Definition with_incrementMs (v : Z) (s : State) : State :=
  mkState
    (game s) (redoStack s) (selected s) (lastMoveSquares s) (gameOver s)
    (promotion s) (baseMs s) v (whiteTimeMs s) (blackTimeMs s)
    (activeColor s) (running s) (timerId s) (gameOverTimeoutId s)
    (soundOn s) (suppressClickUntil s) (touchDrag s) (checkFlash s)
    (stateTick s) (effects s).

Definition with_whiteTimeMs (v : Z) (s : State) : State :=
  mkState
    (game s) (redoStack s) (selected s) (lastMoveSquares s) (gameOver s)
    (promotion s) (baseMs s) (incrementMs s) v (blackTimeMs s)
    (activeColor s) (running s) (timerId s) (gameOverTimeoutId s)
    (soundOn s) (suppressClickUntil s) (touchDrag s) (checkFlash s)
    (stateTick s) (effects s).

Definition with_blackTimeMs (v : Z) (s : State) : State :=
  mkState
    (game s) (redoStack s) (selected s) (lastMoveSquares s) (gameOver s)
    (promotion s) (baseMs s) (incrementMs s) (whiteTimeMs s) v
    (activeColor s) (running s) (timerId s) (gameOverTimeoutId s)
    (soundOn s) (suppressClickUntil s) (touchDrag s) (checkFlash s)
    (stateTick s) (effects s).

Definition with_activeColor (v : Color) (s : State) : State :=
  mkState
    (game s) (redoStack s) (selected s) (lastMoveSquares s) (gameOver s)
    (promotion s) (baseMs s) (incrementMs s) (whiteTimeMs s) (blackTimeMs s)
    v (running s) (timerId s) (gameOverTimeoutId s) (soundOn s)
    (suppressClickUntil s) (touchDrag s) (checkFlash s) (stateTick s)
    (effects s).

Definition with_running (v : bool) (s : State) : State :=
  mkState
    (game s) (redoStack s) (selected s) (lastMoveSquares s) (gameOver s)
    (promotion s) (baseMs s) (incrementMs s) (whiteTimeMs s) (blackTimeMs s)
    (activeColor s) v (timerId s) (gameOverTimeoutId s) (soundOn s)
    (suppressClickUntil s) (touchDrag s) (checkFlash s) (stateTick s)
    (effects s).

Definition with_timerId (v : bool) (s : State) : State :=
  mkState
    (game s) (redoStack s) (selected s) (lastMoveSquares s) (gameOver s)
    (promotion s) (baseMs s) (incrementMs s) (whiteTimeMs s) (blackTimeMs s)
    (activeColor s) (running s) v (gameOverTimeoutId s) (soundOn s)
    (suppressClickUntil s) (touchDrag s) (checkFlash s) (stateTick s)
    (effects s).

Definition with_gameOverTimeoutId (v : option GameOverRec) (s : State) : State :=
  mkState
    (game s) (redoStack s) (selected s) (lastMoveSquares s) (gameOver s)
    (promotion s) (baseMs s) (incrementMs s) (whiteTimeMs s) (blackTimeMs s)
    (activeColor s) (running s) (timerId s) v (soundOn s)
    (suppressClickUntil s) (touchDrag s) (checkFlash s) (stateTick s)
    (effects s).

Definition with_soundOn (v : bool) (s : State) : State :=
  mkState
    (game s) (redoStack s) (selected s) (lastMoveSquares s) (gameOver s)
    (promotion s) (baseMs s) (incrementMs s) (whiteTimeMs s) (blackTimeMs s)
    (activeColor s) (running s) (timerId s) (gameOverTimeoutId s) v
    (suppressClickUntil s) (touchDrag s) (checkFlash s) (stateTick s)
    (effects s).

Definition with_suppressClickUntil (v : Z) (s : State) : State :=
  mkState
    (game s) (redoStack s) (selected s) (lastMoveSquares s) (gameOver s)
    (promotion s) (baseMs s) (incrementMs s) (whiteTimeMs s) (blackTimeMs s)
    (activeColor s) (running s) (timerId s) (gameOverTimeoutId s)
    (soundOn s) v (touchDrag s) (checkFlash s) (stateTick s) (effects s).

Definition with_touchDrag (v : option Drag) (s : State) : State :=
  mkState
    (game s) (redoStack s) (selected s) (lastMoveSquares s) (gameOver s)
    (promotion s) (baseMs s) (incrementMs s) (whiteTimeMs s) (blackTimeMs s)
    (activeColor s) (running s) (timerId s) (gameOverTimeoutId s)
    (soundOn s) (suppressClickUntil s) v (checkFlash s) (stateTick s)
    (effects s).

Definition with_checkFlash (v : bool) (s : State) : State :=
  mkState
    (game s) (redoStack s) (selected s) (lastMoveSquares s) (gameOver s)
    (promotion s) (baseMs s) (incrementMs s) (whiteTimeMs s) (blackTimeMs s)
    (activeColor s) (running s) (timerId s) (gameOverTimeoutId s)
    (soundOn s) (suppressClickUntil s) (touchDrag s) v (stateTick s)
    (effects s).

Definition with_stateTick (v : Z) (s : State) : State :=
  mkState
    (game s) (redoStack s) (selected s) (lastMoveSquares s) (gameOver s)
    (promotion s) (baseMs s) (incrementMs s) (whiteTimeMs s) (blackTimeMs s)
    (activeColor s) (running s) (timerId s) (gameOverTimeoutId s)
    (soundOn s) (suppressClickUntil s) (touchDrag s) (checkFlash s) v
    (effects s).

Definition with_effects (v : list Effect) (s : State) : State :=
  mkState
    (game s) (redoStack s) (selected s) (lastMoveSquares s) (gameOver s)
    (promotion s) (baseMs s) (incrementMs s) (whiteTimeMs s) (blackTimeMs s)
    (activeColor s) (running s) (timerId s) (gameOverTimeoutId s)
    (soundOn s) (suppressClickUntil s) (touchDrag s) (checkFlash s)
    (stateTick s) v.


(** *** Small helpers *)

Definition emit (e : Effect) (s : State) : State :=
  with_effects (e :: effects s) s.

(** [bumpTick] *)
Definition bumpTick (s : State) : State :=
  with_stateTick (stateTick s + 1) s.

(** [setDraggingCursor] *)
Definition setDraggingCursor (on : bool) (s : State) : State :=
  emit (DraggingCursor on) s.

(** [launchConfetti] / [stopConfetti]: the animation itself is presentation. *)
Definition launchConfetti (s : State) : State := emit Confetti s.
Definition stopConfetti (s : State) : State := emit StopConfetti s.

(** [triggerCheckFlash]; the 600 ms timer that ends the flash is
    [checkFlashTimeout]. *)
Definition triggerCheckFlash (s : State) : State :=
  emit CheckFlash (with_checkFlash true s).

Definition checkFlashTimeout (s : State) : State :=
  with_checkFlash false s.

Definition vibrate (pattern : list Z) (s : State) : State :=
  emit (Vibrate pattern) s.

(** [playSound]: haptics for [illegal] and [gameover] whatever the sound
    toggle, then the audio cue when sound is on. *)
Definition playSound (kind : SoundKind) (s : State) : State :=
  let s1 :=
    match kind with
    | SndIllegal => vibrate [30] s
    | SndGameover => vibrate [30; 60; 30] s
    | _ => s
    end in
  if soundOn s1 then emit (Audio kind) s1 else s1.

(** The [isCheck] computed signal.  It is memoised on [stateTick]; every
    handler that changes the engine state bumps the tick before it returns,
    so a read at the start of a handler sees the engine's current answer. *)
Definition isCheck (s : State) : bool := eng_isCheck (game s).

Definition canUndo (s : State) : bool :=
  negb (Nat.eqb (List.length (eng_history (game s))) 0).

Definition canRedo (s : State) : bool :=
  negb (Nat.eqb (List.length (redoStack s)) 0).

Definition isSome {A} (o : option A) : bool :=
  match o with Some _ => true | None => false end.

(** The component as its field initialisers leave it, around engine [g]
    ([game = new Chess()]): a 10+0 clock, not started, sound on. *)
Definition newPage (g : Game) : State :=
  mkState g [] None ∅ None Promotion.none
    (10 * 60 * 1000) 0 (10 * 60 * 1000) (10 * 60 * 1000) White false false
    None true 0 None false 0 [].

(** *** Clock and timers *)

(** [pauseClocks] *)
Definition pauseClocks (s : State) : State :=
  with_running false (with_timerId false s).

(** [if (this.gameOverTimeoutId) { clearTimeout(...); ... = null; }] *)
Definition clearGameOverTimeout (s : State) : State :=
  with_gameOverTimeoutId None s.

(** [this.gameOverTimeoutId = setTimeout(() => { this.gameOver.set(r); ... }, 1500)] *)
Definition scheduleGameOver (r : GameOverRec) (s : State) : State :=
  with_gameOverTimeoutId (Some r) s.

(** The pending timeout elapses: its callback publishes the record. *)
Definition gameOverTimeoutFires (s : State) : State :=
  match gameOverTimeoutId s with
  | Some r => with_gameOverTimeoutId None (with_gameOver (Some r) s)
  | None => s
  end.

(** [onFlag] *)
Definition onFlag (s : State) : State :=
  let s := pauseClocks s in
  let flaggerIsWhite := whiteTimeMs s <=? 0 in
  let winnerColor := if flaggerIsWhite then Black else White in
  let s := launchConfetti s in
  let s := playSound SndGameover s in
  let s := clearGameOverTimeout s in
  scheduleGameOver (mkGameOver time "on time" (Some winnerColor)) s.

(** [if (nowTurn === 'w') whiteTimeMs -= 100; else blackTimeMs -= 100] *)
Definition decrement (nowTurn : Color) (s : State) : State :=
  match nowTurn with
  | White => with_whiteTimeMs (whiteTimeMs s - 100) s
  | Black => with_blackTimeMs (blackTimeMs s - 100) s
  end.

(** [this.whiteTimeMs() <= 0 || this.blackTimeMs() <= 0] *)
Definition flagFallen (s : State) : bool :=
  (whiteTimeMs s <=? 0) || (blackTimeMs s <=? 0).

(** The [tick] closure of [startClocks]. *)
Definition tick (s : State) : State :=
  let nowTurn := eng_turn (game s) in
  if Promotion.ask (promotion s) then s
  else
    let s := decrement nowTurn s in
    if flagFallen s then onFlag s else s.

(** [startClocks] installs the interval; [intervalFires] is one period of
    it (nothing fires once the interval is cleared). *)
Definition startClocks (s : State) : State :=
  if running s then s else with_timerId true (with_running true s).

Definition intervalFires (s : State) : State :=
  if timerId s then tick s else s.

(** [resetClocks] *)
Definition resetClocks (s : State) : State :=
  let s := pauseClocks s in
  let s := with_whiteTimeMs (baseMs s) s in
  let s := with_blackTimeMs (baseMs s) s in
  with_activeColor White s.

(** [setTimeControl] *)
Definition setTimeControl (baseMinutes incSeconds : Z) (s : State) : State :=
  let base := baseMinutes * 60 * 1000 in
  let inc := incSeconds * 1000 in
  let s := with_baseMs base s in
  let s := with_incrementMs inc s in
  let s := with_whiteTimeMs base s in
  let s := with_blackTimeMs base s in
  let s := with_activeColor White s in
  pauseClocks s.

(** *** Game over *)

(** [updateGameOverBanner] *)
Definition updateGameOverBanner (s : State) : State :=
  if eng_isGameOver (game s) then
    let s := pauseClocks s in
    if eng_isCheckmate (game s) then
      let winnerColor :=
        match eng_turn (game s) with White => Black | Black => White end in
      let s := launchConfetti s in
      let s := playSound SndGameover s in
      let s := clearGameOverTimeout s in
      scheduleGameOver
        (mkGameOver checkmate "by checkmate" (Some winnerColor)) s
    else if eng_isStalemate (game s) then
      with_gameOver (Some (mkGameOver stalemate "by stalemate" None)) s
    else
      with_gameOver (Some (mkGameOver draw "draw" None)) s
  else with_gameOver None s.

(** [dismissGameOver] *)
Definition dismissGameOver (s : State) : State :=
  let s := with_gameOver None s in
  let s := clearGameOverTimeout s in
  stopConfetti s.

(** [ngOnInit] (sound preloading and listeners left out) and
    [ngOnDestroy]. *)
Definition ngOnInit (s : State) : State := updateGameOverBanner s.

Definition ngOnDestroy (s : State) : State :=
  let s := clearGameOverTimeout s in
  stopConfetti s.

(** *** Commit *)

(** The cue of a committed move, [afterMoveUpdate]'s block
    [if (this.soundOn()) { ... }]: one cue, none on checkmate. *)
Definition moveCue (move : Move.t) (s : State) : State :=
  if soundOn s then
    let isCastle :=
      includes (Move.flags move) "k" || includes (Move.flags move) "q" in
    let isCapture :=
      isSome (Move.captured move) || includes (Move.flags move) "c"
      || includes (Move.flags move) "e" in
    let isMate := eng_isCheckmate (game s) in
    let isCheck := eng_isCheck (game s) in
    if isMate then s
    else if isCheck then playSound SndCheck s
    else if isCastle then playSound SndCastle s
    else if isCapture then playSound SndCapture s
    else playSound SndMove s
  else s.

(** [afterMoveUpdate]'s last block: the increment of the side that moved. *)
Definition applyIncrement (move : Move.t) (s : State) : State :=
  let inc := incrementMs s in
  if 0 <? inc then
    match Move.color move with
    | White => with_whiteTimeMs (whiteTimeMs s + inc) s
    | Black => with_blackTimeMs (blackTimeMs s + inc) s
    end
  else s.

(** [afterMoveUpdate(move)]; the engine has already applied [move], so
    [game s] is the position after it. *)
Definition afterMoveUpdate (move : Move.t) (s : State) : State :=
  let s := with_redoStack [] s in
  let s := with_selected None s in
  let s := with_lastMoveSquares {[ Move.from move; Move.to move ]} s in
  let s := moveCue move s in
  let s := updateGameOverBanner s in
  let s := bumpTick s in
  applyIncrement move s.

(** *** Controls *)

(** [reset] *)
Definition reset (s : State) : State :=
  let s := with_game (eng_reset (game s)) s in
  let s := with_redoStack [] s in
  let s := with_selected None s in
  let s := with_lastMoveSquares ∅ s in
  let s := stopConfetti s in
  let s := updateGameOverBanner s in
  let s := bumpTick s in
  let s := pauseClocks s in
  let s := with_whiteTimeMs (baseMs s) s in
  let s := with_blackTimeMs (baseMs s) s in
  with_activeColor White s.

(** [undo]; the redo stack grows at its head. *)
Definition undo (s : State) : State :=
  match eng_undo (game s) with
  | Some (m, g) =>
      let s := with_game g s in
      let s := with_redoStack (m :: redoStack s) s in
      let s := with_selected None s in
      let s := with_lastMoveSquares ∅ s in
      let s := updateGameOverBanner s in
      let s := bumpTick s in
      if soundOn s then playSound SndMove s else s
  | None => s
  end.

(** [redo]: [pop] removes the entry whether or not the engine accepts it. *)
Definition redo (s : State) : State :=
  match redoStack s with
  | [] => s
  | move :: rest =>
      let s := with_redoStack rest s in
      match eng_move_san (game s) (Move.san move) with
      | Some (res, g) => afterMoveUpdate res (with_game g s)
      | None => s
      end
  end.

(** [loadFEN] *)
Definition loadFEN (fenStr : string) (s : State) : State :=
  match eng_load (game s) fenStr with
  | Some g =>
      let s := with_game g s in
      let s := with_redoStack [] s in
      let s := with_selected None s in
      let s := with_lastMoveSquares ∅ s in
      let s := updateGameOverBanner s in
      let s := bumpTick s in
      let s := pauseClocks s in
      let s := with_whiteTimeMs (baseMs s) s in
      let s := with_blackTimeMs (baseMs s) s in
      with_activeColor White s
  | None => emit (Alert "Invalid FEN") s
  end.

(** *** Click handling and moves *)

(** [clearSelection] *)
Definition clearSelection (s : State) : State :=
  let s := with_selected None s in
  let s := with_lastMoveSquares ∅ s in
  bumpTick s.

Definition is_nil {A} (l : list A) : bool :=
  match l with [] => true | _ => false end.

(** The engine's answer [target] asks for a promotion choice. *)
Definition askPromotion (target : Move.t) (s : State) : State :=
  with_promotion
    (Promotion.mk true (Some (Move.color target))
       (Some (Move.from target)) (Some (Move.to target))) s.

(** [const res = this.game.move({from, to}); if (res) this.afterMoveUpdate(res)] *)
Definition applyTarget (target : Move.t) (s : State) : State :=
  match eng_move (game s) (Move.from target) (Move.to target) None with
  | Some (res, g) => afterMoveUpdate res (with_game g s)
  | None => s
  end.

(** [onSquareClick], branch [if (!currentSel) { ... }]. *)
Definition clickIdle (name : Square) (s : State) : State :=
  match eng_get (game s) name with
  | None => if isCheck s then triggerCheckFlash s else s
  | Some piece =>
      if negb (Color_eqb (Piece.color piece) (eng_turn (game s))) then
        let s := if isCheck s then triggerCheckFlash s else s in
        playSound SndIllegal s
      else if isCheck s && is_nil (eng_moves (game s) name) then
        playSound SndIllegal (triggerCheckFlash s)
      else with_selected (Some name) s
  end.

(** [onSquareClick], the rest of the body, with [currentSel] selected. *)
Definition clickSelected (currentSel name : Square) (s : State) : State :=
  if String.eqb currentSel name then clearSelection s
  else
    match find_to name (eng_moves (game s) currentSel) with
    | None =>
        match eng_get (game s) name with
        | Some piece =>
            if Color_eqb (Piece.color piece) (eng_turn (game s)) then
              if isCheck s && is_nil (eng_moves (game s) name) then
                playSound SndIllegal (triggerCheckFlash s)
              else with_selected (Some name) s
            else clearSelection (playSound SndIllegal s)
        | None => clearSelection (playSound SndIllegal s)
        end
    | Some target =>
        if includes (Move.flags target) "p" then askPromotion target s
        else applyTarget target s
    end.

(** [onSquareClick(name)], called at time [now] ([performance.now()]). *)
Definition onSquareClick (now : Z) (name : Square) (s : State) : State :=
  if now <? suppressClickUntil s then s
  else if Promotion.ask (promotion s) then s
  else if eng_isGameOver (game s) || isSome (gameOver s) then s
  else if negb (running s) then s
  else
    match selected s with
    | Some currentSel =>
        if String.eqb currentSel "" then clickIdle name s
        else clickSelected currentSel name s
    | None => clickIdle name s
    end.

(** [tryMove(from, to)] *)
Definition tryMove (from to : Square) (s : State) : State :=
  if Promotion.ask (promotion s) || eng_isGameOver (game s)
     || isSome (gameOver s) || negb (running s) then s
  else
    match find_to to (eng_moves (game s) from) with
    | None => clearSelection (playSound SndIllegal s)
    | Some target =>
        if includes (Move.flags target) "p" then askPromotion target s
        else applyTarget target s
    end.

(** [promote(piece)].  When the engine rejects the held move, [game.move]
    raises before [this.promotion.set(...)] is reached: the call ends there
    and the record stays pending. *)
Definition promote (piece : PromotePiece) (s : State) : State :=
  let p := promotion s in
  if negb (Promotion.ask p) || negb (truthy (Promotion.from p))
     || negb (truthy (Promotion.to p)) || negb (isSome (Promotion.color p))
  then s
  else
    match Promotion.from p, Promotion.to p with
    | Some from, Some to =>
        match eng_move (game s) from to (Some piece) with
        | Some (res, g) =>
            afterMoveUpdate res (with_promotion Promotion.none (with_game g s))
        | None => s
        end
    | _, _ => s
    end.

(** *** Drag gestures *)

(** [Math.hypot(dx, dy) > 4], on integer pixel coordinates. *)
Definition crossedThreshold (dx dy : Z) : bool := 16 <? dx * dx + dy * dy.

(** The guard shared by the three press handlers, after their
    device-specific checks: a press on anything but a piece of the side to
    move, or on a piece without moves while in check, is refused by
    [refuse]; otherwise the drag record is created. *)
Definition pressGuard (refuse : bool -> State -> State)
    (accept : State -> State) (from : Square) (s : State) : State :=
  if Promotion.ask (promotion s) || eng_isGameOver (game s)
     || isSome (gameOver s) then s
  else
    match eng_get (game s) from with
    | Some piece =>
        if negb (Color_eqb (Piece.color piece) (eng_turn (game s))) then
          refuse (isCheck s) s
        else if isCheck s && is_nil (eng_moves (game s) from) then
          refuse true s
        else accept s
    | None => refuse (isCheck s) s
    end.

(** [if (flash) this.triggerCheckFlash(); this.playSound('illegal');] *)
Definition refusePress (flash : bool) (s : State) : State :=
  playSound SndIllegal (if flash then triggerCheckFlash s else s).

(** The touch handler plays the cue only [if (this.soundOn())]. *)
Definition refuseTouch (flash : bool) (s : State) : State :=
  let s := if flash then triggerCheckFlash s else s in
  if soundOn s then playSound SndIllegal s else s.

Definition beginDrag (from : Square) (x y : Z) (s : State) : State :=
  with_touchDrag (Some (mkDrag from x y false None)) s.

(** [onPiecePointerDown(from, ev)] *)
Definition onPiecePointerDown (from : Square) (ev : PointerEv) (s : State)
    : State :=
  if negb (button ev =? 0) then s
  else if pointerIsMouse ev then s
  else pressGuard refusePress (beginDrag from (clientX ev) (clientY ev)) from s.

(** [onMouseDownPiece(from, ev)] *)
Definition onMouseDownPiece (from : Square) (ev : PointerEv) (s : State)
    : State :=
  if negb (button ev =? 0) then s
  else pressGuard refusePress (beginDrag from (clientX ev) (clientY ev)) from s.

(** [onPieceTouchStart(from, ev)]: selects at once. *)
Definition onPieceTouchStart (from : Square) (touches : list Touch) (s : State)
    : State :=
  match touches with
  | [t] =>
      pressGuard refuseTouch
        (fun s => with_selected (Some from)
                    (beginDrag from (touchX t) (touchY t) s)) from s
  | _ => s
  end.

(** [sqEl?.getAttribute('data-square') || undefined] *)
Definition squareUnder (hit : option Square) : option Square :=
  if truthy hit then hit else None.

Definition setMoved (d : Drag) : Drag :=
  mkDrag (drag_from d) (startX d) (startY d) true (currentOverSquare d).

(** [if (newSq !== d.currentOverSquare) { ...; d.currentOverSquare = newSq; }] *)
Definition setOver (newSq : option Square) (d : Drag) : Drag :=
  mkDrag (drag_from d) (startX d) (startY d) (moved d) newSq.

(** [onGlobalPointerMove(ev)] *)
Definition onGlobalPointerMove (ev : PointerEv) (s : State) : State :=
  match touchDrag s with
  | None => s
  | Some d =>
      let crossing :=
        negb (moved d)
        && crossedThreshold (clientX ev - startX d) (clientY ev - startY d) in
      let d1 := if crossing then setMoved d else d in
      let s :=
        if crossing then
          setDraggingCursor true (with_selected (Some (drag_from d)) s)
        else s in
      with_touchDrag (Some (setOver (squareUnder (squareAtPoint ev)) d1)) s
  end.

(** [onGlobalMouseMove(ev)] *)
Definition onGlobalMouseMove (ev : PointerEv) (s : State) : State :=
  onGlobalPointerMove ev s.

(** [onGlobalTouchMove(ev)]: marks the drag as moved, selects nothing. *)
Definition onGlobalTouchMove (touches : list Touch) (s : State) : State :=
  match touchDrag s with
  | None => s
  | Some d =>
      match touches with
      | [t] =>
          let crossing :=
            negb (moved d)
            && crossedThreshold (touchX t - startX d) (touchY t - startY d) in
          let d1 := if crossing then setMoved d else d in
          with_touchDrag (Some (setOver (squareUnder (touchSquare t)) d1)) s
      | _ => s
      end
  end.

(** The release shared by the three up handlers:
    [if (moved) { if (over && over !== from) { tryMove; suppress } }]. *)
Definition dropIfMoved (now : Z) (d : Drag) (s : State) : State :=
  if moved d then
    match currentOverSquare d with
    | Some over =>
        if truthy (Some over) && negb (String.eqb over (drag_from d)) then
          with_suppressClickUntil (now + 250) (tryMove (drag_from d) over s)
        else s
    | None => s
    end
  else s.

(** [onGlobalPointerUp(ev)] *)
Definition onGlobalPointerUp (now : Z) (s : State) : State :=
  match touchDrag s with
  | None => s
  | Some d =>
      setDraggingCursor false (with_touchDrag None (dropIfMoved now d s))
  end.

(** [onGlobalMouseUp(ev)] *)
Definition onGlobalMouseUp (now : Z) (s : State) : State :=
  match touchDrag s with
  | None => s
  | Some d => with_touchDrag None (dropIfMoved now d s)
  end.

(** [onGlobalTouchEnd(ev)] *)
Definition onGlobalTouchEnd (now : Z) (s : State) : State :=
  match touchDrag s with
  | None => s
  | Some d => with_touchDrag None (dropIfMoved now d s)
  end.

(** [cancelActiveDrag] *)
Definition cancelActiveDrag (s : State) : State :=
  match touchDrag s with
  | None => s
  | Some _ => setDraggingCursor false (with_touchDrag None s)
  end.

(** *** The paths that apply a move *)

Inductive MoveOp :=
  | OpClick (now : Z) (name : Square)
  | OpDrop (from to : Square)
  | OpPromote (piece : PromotePiece)
  | OpRedo.

Definition run (op : MoveOp) (s : State) : State :=
  match op with
  | OpClick now name => onSquareClick now name s
  | OpDrop from to => tryMove from to s
  | OpPromote piece => promote piece s
  | OpRedo => redo s
  end.

(** The remaining time of a side. *)
Definition remaining (c : Color) (s : State) : Z :=
  match c with White => whiteTimeMs s | Black => blackTimeMs s end.

(** [Commits op s res pre]: running [op] in [s] reaches the engine, which
    applies a move and answers [res]; [pre] is the state in which
    [afterMoveUpdate res] is then called. *)
Inductive Commits : MoveOp -> State -> Move.t -> State -> Prop :=
  | commit_click now name s currentSel target res g :
      (now <? suppressClickUntil s) = false ->
      Promotion.ask (promotion s) = false ->
      eng_isGameOver (game s) = false ->
      gameOver s = None ->
      running s = true ->
      selected s = Some currentSel ->
      currentSel <> "" ->
      currentSel <> name ->
      find_to name (eng_moves (game s) currentSel) = Some target ->
      includes (Move.flags target) "p" = false ->
      eng_move (game s) (Move.from target) (Move.to target) None
        = Some (res, g) ->
      Commits (OpClick now name) s res (with_game g s)
  | commit_drop from to s target res g :
      Promotion.ask (promotion s) = false ->
      eng_isGameOver (game s) = false ->
      gameOver s = None ->
      running s = true ->
      find_to to (eng_moves (game s) from) = Some target ->
      includes (Move.flags target) "p" = false ->
      eng_move (game s) (Move.from target) (Move.to target) None
        = Some (res, g) ->
      Commits (OpDrop from to) s res (with_game g s)
  | commit_promote piece s from to c res g :
      Promotion.ask (promotion s) = true ->
      Promotion.from (promotion s) = Some from ->
      from <> "" ->
      Promotion.to (promotion s) = Some to ->
      to <> "" ->
      Promotion.color (promotion s) = Some c ->
      eng_move (game s) from to (Some piece) = Some (res, g) ->
      Commits (OpPromote piece) s res
        (with_promotion Promotion.none (with_game g s))
  | commit_redo s move rest res g :
      redoStack s = move :: rest ->
      eng_move_san (game s) (Move.san move) = Some (res, g) ->
      Commits OpRedo s res (with_game g (with_redoStack rest s)).

End Controller.

(** ** The rest of the component: controls, read-outs and presentation *)

(** The signals that only the template reads: board orientation, player
    names and their edit flags, the time picker. *)
Record View := mkView {
  flipped : bool;
  whiteName : string;
  blackName : string;
  editingWhite : bool;
  editingBlack : bool;
  timePickerOpen : bool
}.

(** The field initialisers of these signals. *)
Definition newView : View := mkView false "White" "Black" false false false.

(** [flip] *)
Definition flip (v : View) : View :=
  mkView (negb (flipped v)) (whiteName v) (blackName v) (editingWhite v)
    (editingBlack v) (timePickerOpen v).

(** [toggleTimePicker] *)
Definition toggleTimePicker (v : View) : View :=
  mkView (flipped v) (whiteName v) (blackName v) (editingWhite v)
    (editingBlack v) (negb (timePickerOpen v)).

(** [beginEdit(color)] *)
Definition beginEdit (color : Color) (v : View) : View :=
  match color with
  | White =>
      mkView (flipped v) (whiteName v) (blackName v) true (editingBlack v)
        (timePickerOpen v)
  | Black =>
      mkView (flipped v) (whiteName v) (blackName v) (editingWhite v) true
        (timePickerOpen v)
  end.

(** [n.toString()] for an integer. *)
Definition toString (n : Z) : string := NilZero.string_of_int (Z.to_int n).

(** [s[i]]: [None] is [undefined]. *)
Definition charAt (s : string) (i : Z) : option ascii :=
  if i <? 0 then None else String.get (Z.to_nat i) s.

(** [squareName(r, c)]: [files[c] + (8 - r)].  Outside the files,
    [files[c]] is [undefined] and the sum is [NaN], not a name: [None]. *)
Definition squareName (r c : Z) : option string :=
  match charAt "abcdefgh" c with
  | Some file => Some (String file (toString (8 - r)))
  | None => None
  end.

(** [SquareVM]; [name] is [None] for the [NaN] of [squareName]. *)
Record SquareVM := mkSquareVM {
  name : option string;
  piece : option Piece.t
}.

(** [fileLetter(name)]: [name[0]] *)
Definition fileLetter (name : string) : option ascii := charAt name 0.

Definition digitValue (ch : ascii) : option Z :=
  let n := Z.of_nat (nat_of_ascii ch) in
  if (48 <=? n) && (n <=? 57) then Some (n - 48) else None.

(** White space in the sense of [Number]: tab, line feed, vertical tab,
    form feed, carriage return, space, no-break space. *)
Definition isWhiteSpace (ch : ascii) : bool :=
  let n := Z.of_nat (nat_of_ascii ch) in
  ((9 <=? n) && (n <=? 13)) || (n =? 32) || (n =? 160).

(** [Number(ch)] for a one-character string or [undefined]; [None] is
    [NaN]. *)
Definition NumberOfChar (o : option ascii) : option Z :=
  match o with
  | Some ch =>
      match digitValue ch with
      | Some d => Some d
      | None => if isWhiteSpace ch then Some 0 else None
      end
  | None => None
  end.

(** [rankNumber(name)]: [Number(name[1])] *)
Definition rankNumber (name : string) : option Z :=
  NumberOfChar (charAt name 1).

(** [showFileLabel(name)] *)
Definition showFileLabel (v : View) (name : string) : bool :=
  let targetRank := if flipped v then 8 else 1 in
  match rankNumber name with
  | Some k => k =? targetRank
  | None => false
  end.

(** [showRankLabel(name)] *)
Definition showRankLabel (v : View) (name : string) : bool :=
  let targetFile := if flipped v then "h"%char else "a"%char in
  match fileLetter name with
  | Some ch => Ascii.eqb ch targetFile
  | None => false
  end.

(** ['abcdefgh'.indexOf(ch)], [-1] when absent or [undefined]. *)
Fixpoint indexFrom (i : Z) (s : string) (ch : ascii) : Z :=
  match s with
  | EmptyString => -1
  | String c rest => if Ascii.eqb c ch then i else indexFrom (i + 1) rest ch
  end.

Definition fileIndexOf (o : option ascii) : Z :=
  match o with
  | Some ch => indexFrom 0 "abcdefgh" ch
  | None => -1
  end.

(** [getSquareColorClass(sq)]: light when file index plus rank is even
    ([%] is the remainder; a [NaN] rank is never light). *)
Definition getSquareColorClass (sq : SquareVM) : string :=
  let first := match name sq with Some n => charAt n 0 | None => None end in
  let second := match name sq with Some n => charAt n 1 | None => None end in
  let fileIndex := fileIndexOf first in
  let light :=
    match NumberOfChar second with
    | Some rank => Z.rem (fileIndex + rank) 2 =? 0
    | None => false
    end in
  if light then "square-light" else "square-dark".

Definition colorCode (c : Color) : string :=
  match c with White => "w" | Black => "b" end.

Definition typeCode (t : PieceType) : string :=
  match t with
  | Pawn => "p" | Rook => "r" | Knight => "n"
  | Bishop => "b" | Queen => "q" | King => "k"
  end.

Definition promoteCode (p : PromotePiece) : string :=
  match p with Pq => "q" | Pr => "r" | Pb => "b" | Pn => "n" end.

(** [pieceImageSrc(sq)] *)
Definition pieceImageSrc (sq : SquareVM) : string :=
  match piece sq with
  | None => ""
  | Some p =>
      "assets/pieces/cburnett/"
      ++ (colorCode (Piece.color p) ++ typeCode (Piece.type p)) ++ ".png"
  end.

(** [promotionImageSrc(piece, color)] *)
Definition promotionImageSrc (p : PromotePiece) (color : option Color)
    : string :=
  match color with
  | None => ""
  | Some c =>
      "assets/pieces/cburnett/" ++ (colorCode c ++ promoteCode p) ++ ".png"
  end.

(** [s.padStart(2, '0')] *)
Definition padStart2 (s : string) : string :=
  match String.length s with
  | 0%nat => "00"
  | 1%nat => "0" ++ s
  | _ => s
  end.

(** [formatTime(ms)], on whole milliseconds. *)
Definition formatTime (ms : Z) : string :=
  let neg := ms <? 0 in
  let t := Z.max 0 ms in
  let totalSec := t / 1000 in
  let minutes := totalSec / 60 in
  let seconds := totalSec mod 60 in
  let tenths := (t mod 1000) / 100 in
  let sign := if neg then "-" else "" in
  if 10 <=? minutes then
    sign ++ toString minutes ++ ":" ++ padStart2 (toString seconds)
  else if 0 <? minutes then
    sign ++ toString minutes ++ ":" ++ padStart2 (toString seconds)
  else sign ++ toString seconds ++ "." ++ toString tenths ++ "s".

(** The loops [for r in 0..7, for c in 0..7], row by row. *)
Definition cells : list (nat * nat) :=
  List.flat_map (fun r => List.map (fun c => (r, c)) (List.seq 0 8))
    (List.seq 0 8).

(** [boardSquares()]; [raw r c] is [this.game.board()[r][c]], the engine's
    8 by 8 array from rank 8 down to rank 1. *)
Definition boardSquares (raw : nat -> nat -> option Piece.t) (v : View)
    : list SquareVM :=
  List.map
    (fun '(r, c) =>
       let rr := if flipped v then (7 - r)%nat else r in
       let cc := if flipped v then (7 - c)%nat else c in
       mkSquareVM (squareName (Z.of_nat rr) (Z.of_nat cc)) (raw rr cc))
    cells.

(** The effects that make a sound. *)
Definition isAudio (e : Effect) : bool :=
  match e with Audio _ => true | _ => false end.

Section Surface.

Context {Game : Type} {E : RulesEngine Game}.

Local Abbreviation State := (State Game).

(** [(s || '').trim()], the string function of the runtime. *)
Variable trim : string -> string.

(** [endEdit(color)] *)
Definition endEdit (color : Color) (v : View) : View :=
  let norm (s fallback : string) :=
    let t := trim s in
    if String.eqb t "" then fallback else t in
  match color with
  | White =>
      mkView (flipped v) (norm (whiteName v) "Player 1") (blackName v) false
        (editingBlack v) (timePickerOpen v)
  | Black =>
      mkView (flipped v) (whiteName v) (norm (blackName v) "Player 2")
        (editingWhite v) false (timePickerOpen v)
  end.

(** [winnerDisplay()] *)
Definition winnerDisplay (v : View) (s : State) : string :=
  match gameOver s with
  | None => ""
  | Some go =>
      match winner go with
      | Some White => whiteName v
      | Some Black => blackName v
      | None => "Draw"
      end
  end.

(** [toggleSound] *)
Definition toggleSound (s : State) : State :=
  with_soundOn (negb (soundOn s)) s.

(** [pickPreset(minutes, incSeconds)] *)
Definition pickPreset (minutes incSeconds : Z) (v : View) (s : State)
    : View * State :=
  (mkView (flipped v) (whiteName v) (blackName v) (editingWhite v)
     (editingBlack v) false,
   setTimeControl minutes incSeconds s).

(** [isPresetActive(minutes, incSeconds)] *)
Definition isPresetActive (minutes incSeconds : Z) (s : State) : bool :=
  (baseMs s =? minutes * 60000) && (incrementMs s =? incSeconds * 1000).

(** The [legalTargets] computed signal.  It is recomputed when [selected]
    changes; the engine state only changes in handlers that also reset
    [selected]. *)
Definition legalTargets (s : State) : gset Square :=
  match selected s with
  | Some from =>
      if String.eqb from "" then ∅
      else list_to_set (List.map Move.to (eng_moves (game s) from))
  | None => ∅
  end.

(** The filter of [captureTargets]. *)
Definition isCaptureMove (m : Move.t) : bool :=
  isSome (Move.captured m) || includes (Move.flags m) "c"
  || includes (Move.flags m) "e".

(** The [captureTargets] computed signal. *)
Definition captureTargets (s : State) : gset Square :=
  match selected s with
  | Some from =>
      if String.eqb from "" then ∅
      else
        list_to_set
          (List.map Move.to
             (List.filter isCaptureMove (eng_moves (game s) from)))
  | None => ∅
  end.

(** [isLastMoveSquare], [isLegalTarget], [isCaptureTarget] *)
Definition isLastMoveSquare (name : Square) (s : State) : bool :=
  bool_decide (name ∈ lastMoveSquares s).

Definition isLegalTarget (name : Square) (s : State) : bool :=
  bool_decide (name ∈ legalTargets s).

Definition isCaptureTarget (name : Square) (s : State) : bool :=
  bool_decide (name ∈ captureTargets s).

(** The [kingSquare] computed signal: the first king of the side to move
    in the scan of [game.board()]. *)
Definition isKingOf (color : Color) (p : option Piece.t) : bool :=
  match p with
  | Some q =>
      match Piece.type q with
      | King => Color_eqb (Piece.color q) color
      | _ => false
      end
  | None => false
  end.

Definition kingSquare (raw : nat -> nat -> option Piece.t) (s : State)
    : option string :=
  match
    List.find (fun '(r, c) => isKingOf (eng_turn (game s)) (raw r c)) cells
  with
  | Some (r, c) => squareName (Z.of_nat r) (Z.of_nat c)
  | None => None
  end.

(** [isCheckedKingSquare(name)] *)
Definition isCheckedKingSquare (raw : nat -> nat -> option Piece.t)
    (name : string) (s : State) : bool :=
  isCheck s &&
  match kingSquare raw s with
  | Some k => String.eqb k name
  | None => false
  end.

(** *** Every entry point of the session *)

Inductive Action :=
  | AInit
  | ADestroy
  | AClick (now : Z) (name : Square)
  | APointerDown (from : Square) (ev : PointerEv)
  | AMouseDown (from : Square) (ev : PointerEv)
  | ATouchStart (from : Square) (touches : list Touch)
  | APointerMove (ev : PointerEv)
  | AMouseMove (ev : PointerEv)
  | ATouchMove (touches : list Touch)
  | APointerUp (now : Z)
  | AMouseUp (now : Z)
  | ATouchEnd (now : Z)
  | ACancelDrag
  | APromote (piece : PromotePiece)
  | AUndo
  | ARedo
  | AReset
  | ALoadFEN (fenStr : string)
  | AStartClocks
  | APauseClocks
  | AResetClocks
  | ASetTimeControl (baseMinutes incSeconds : Z)
  | ADismissGameOver
  | AToggleSound
  | AIntervalFires
  | AGameOverTimeoutFires
  | ACheckFlashTimeout.

Definition step (a : Action) (s : State) : State :=
  match a with
  | AInit => ngOnInit s
  | ADestroy => ngOnDestroy s
  | AClick now name => onSquareClick now name s
  | APointerDown from ev => onPiecePointerDown from ev s
  | AMouseDown from ev => onMouseDownPiece from ev s
  | ATouchStart from touches => onPieceTouchStart from touches s
  | APointerMove ev => onGlobalPointerMove ev s
  | AMouseMove ev => onGlobalMouseMove ev s
  | ATouchMove touches => onGlobalTouchMove touches s
  | APointerUp now => onGlobalPointerUp now s
  | AMouseUp now => onGlobalMouseUp now s
  | ATouchEnd now => onGlobalTouchEnd now s
  | ACancelDrag => cancelActiveDrag s
  | APromote piece => promote piece s
  | AUndo => undo s
  | ARedo => redo s
  | AReset => reset s
  | ALoadFEN fenStr => loadFEN fenStr s
  | AStartClocks => startClocks s
  | APauseClocks => pauseClocks s
  | AResetClocks => resetClocks s
  | ASetTimeControl baseMinutes incSeconds =>
      setTimeControl baseMinutes incSeconds s
  | ADismissGameOver => dismissGameOver s
  | AToggleSound => toggleSound s
  | AIntervalFires => intervalFires s
  | AGameOverTimeoutFires => gameOverTimeoutFires s
  | ACheckFlashTimeout => checkFlashTimeout s
  end.

(** The actions that call a mutating method of the engine ([move],
    [undo], [reset], [load]), directly or through [tryMove]. *)
Definition callsEngine (a : Action) : bool :=
  match a with
  | AClick _ _ | APointerUp _ | AMouseUp _ | ATouchEnd _ | APromote _
  | AUndo | ARedo | AReset | ALoadFEN _ => true
  | _ => false
  end.

(** A run of the session: the actions of [l], first to last. *)
Definition steps (l : list Action) (s : State) : State :=
  List.fold_left (fun t a => step a t) l s.

End Surface.

(** ** A scripted engine

    A stand-in for chess.js on two short lines of play, used to run the
    controller on concrete positions.  From the standard starting position
    it offers the moves of 1. f3 e5 2. g4 Qh4#, one per ply, and reports
    check, checkmate and game over after the fourth; from the study
    position [8/P6k/8/8/8/8/8/4K3 w - - 0 1] it offers the four promotions
    a7-a8; the position [7k/5Q2/6K1/8/8/8/8/8 b - - 0 1] is a stalemate;
    in [4k3/8/8/8/8/8/4q3/4K2R w - - 0 1] White is in check, the rook cannot
    move and the king can only take the queen.
    Pieces are tracked by relocating them from the starting placement. *)
Module Script.

Inductive Start := Standard | Study | Stalemate | InCheck.

Record t := mk {
  start : Start;
  played : list Move.t   (* newest first *)
}.

Definition standardFEN : string :=
  "rnbqkbnr/pppppppp/8/8/8/8/PPPPPPPP/RNBQKBNR w KQkq - 0 1".
Definition studyFEN : string := "8/P6k/8/8/8/8/8/4K3 w - - 0 1".
Definition stalemateFEN : string := "7k/5Q2/6K1/8/8/8/8/8 b - - 0 1".
Definition inCheckFEN : string := "4k3/8/8/8/8/8/4q3/4K2R w - - 0 1".

Definition f3 := Move.mk White "f2" "f3" "f3" "n" None None.
Definition e5 := Move.mk Black "e7" "e5" "e5" "b" None None.
Definition g4 := Move.mk White "g2" "g4" "g4" "b" None None.
Definition Qh4 := Move.mk Black "d8" "h4" "Qh4#" "n" None None.

Definition Kxe2 := Move.mk White "e1" "e2" "Kxe2" "c" (Some Queen) None.

Definition a8 (p : PromotePiece) (san : string) :=
  Move.mk White "a7" "a8" san "np" None (Some p).

Definition backRank (file : Ascii.ascii) : option PieceType :=
  match file with
  | "a"%char | "h"%char => Some Rook
  | "b"%char | "g"%char => Some Knight
  | "c"%char | "f"%char => Some Bishop
  | "d"%char => Some Queen
  | "e"%char => Some King
  | _ => None
  end.

Definition standardPiece (sq : Square) : option Piece.t :=
  match sq with
  | String file (String rank EmptyString) =>
      match rank with
      | "1"%char => option_map (fun ty => Piece.mk ty White) (backRank file)
      | "2"%char => option_map (fun _ => Piece.mk Pawn White) (backRank file)
      | "7"%char => option_map (fun _ => Piece.mk Pawn Black) (backRank file)
      | "8"%char => option_map (fun ty => Piece.mk ty Black) (backRank file)
      | _ => None
      end
  | _ => None
  end.

Definition studyPiece (sq : Square) : option Piece.t :=
  if String.eqb sq "a7" then Some (Piece.mk Pawn White)
  else if String.eqb sq "e1" then Some (Piece.mk King White)
  else if String.eqb sq "h7" then Some (Piece.mk King Black)
  else None.

Definition stalematePiece (sq : Square) : option Piece.t :=
  if String.eqb sq "h8" then Some (Piece.mk King Black)
  else if String.eqb sq "f7" then Some (Piece.mk Queen White)
  else if String.eqb sq "g6" then Some (Piece.mk King White)
  else None.

Definition inCheckPiece (sq : Square) : option Piece.t :=
  if String.eqb sq "e8" then Some (Piece.mk King Black)
  else if String.eqb sq "e2" then Some (Piece.mk Queen Black)
  else if String.eqb sq "e1" then Some (Piece.mk King White)
  else if String.eqb sq "h1" then Some (Piece.mk Rook White)
  else None.

Definition startPiece (s : Start) : Square -> option Piece.t :=
  match s with
  | Standard => standardPiece
  | Study => studyPiece
  | Stalemate => stalematePiece
  | InCheck => inCheckPiece
  end.

Definition promoted (p : PromotePiece) : PieceType :=
  match p with Pq => Queen | Pr => Rook | Pb => Bishop | Pn => Knight end.

Fixpoint pieceAt (s : Start) (played : list Move.t) (sq : Square)
    : option Piece.t :=
  match played with
  | [] => startPiece s sq
  | m :: older =>
      if String.eqb sq (Move.to m) then
        match Move.promotion m with
        | Some p => Some (Piece.mk (promoted p) (Move.color m))
        | None => pieceAt s older (Move.from m)
        end
      else if String.eqb sq (Move.from m) then None
      else pieceAt s older sq
  end.

(** The moves the script offers in a position. *)
Definition offered (g : t) : list Move.t :=
  match start g, List.length (played g) with
  | Standard, 0%nat => [f3]
  | Standard, 1%nat => [e5]
  | Standard, 2%nat => [g4]
  | Standard, 3%nat => [Qh4]
  | Study, 0%nat => [a8 Pq "a8=Q"; a8 Pr "a8=R"; a8 Pb "a8=B"; a8 Pn "a8=N"]
  | InCheck, 0%nat => [Kxe2]
  | _, _ => []
  end.

Definition mated (g : t) : bool :=
  match start g, List.length (played g) with
  | Standard, 4%nat => true
  | _, _ => false
  end.

Definition checked (g : t) : bool :=
  mated g ||
  match start g, List.length (played g) with
  | InCheck, 0%nat => true
  | _, _ => false
  end.

Definition stalemated (g : t) : bool :=
  match start g with Stalemate => true | _ => false end.

Definition PromotePiece_eqb (a b : PromotePiece) : bool :=
  match a, b with
  | Pq, Pq | Pr, Pr | Pb, Pb | Pn, Pn => true
  | _, _ => false
  end.

Definition samePromotion (a b : option PromotePiece) : bool :=
  match a, b with
  | Some x, Some y => PromotePiece_eqb x y
  | None, None => true
  | _, _ => false
  end.

Definition push (g : t) (m : Move.t) : Move.t * t :=
  (m, mk (start g) (m :: played g)).

Definition move (g : t) (from to : Square) (p : option PromotePiece)
    : option (Move.t * t) :=
  option_map (push g)
    (List.find
       (fun m => String.eqb (Move.from m) from && String.eqb (Move.to m) to
                 && samePromotion (Move.promotion m) p)
       (offered g)).

Definition move_san (g : t) (san : string) : option (Move.t * t) :=
  option_map (push g)
    (List.find (fun m => String.eqb (Move.san m) san) (offered g)).

Definition undo (g : t) : option (Move.t * t) :=
  match played g with
  | m :: older => Some (m, mk (start g) older)
  | [] => None
  end.

Definition load (fen : string) : option t :=
  if String.eqb fen standardFEN then Some (mk Standard [])
  else if String.eqb fen studyFEN then Some (mk Study [])
  else if String.eqb fen stalemateFEN then Some (mk Stalemate [])
  else if String.eqb fen inCheckFEN then Some (mk InCheck [])
  else None.

Definition firstToMove (s : Start) : Color :=
  match s with Stalemate => Black | _ => White end.

Definition turn (g : t) : Color :=
  if Nat.even (List.length (played g)) then firstToMove (start g)
  else opposite (firstToMove (start g)).

#[global] Instance engine : RulesEngine t := {
  eng_turn := turn;
  eng_get g sq := pieceAt (start g) (played g) sq;
  eng_moves g sq :=
    List.filter (fun m => String.eqb (Move.from m) sq) (offered g);
  eng_move := move;
  eng_move_san := move_san;
  eng_undo := undo;
  eng_reset _ := mk Standard [];
  eng_load _ := load;
  eng_history g := List.map Move.san (List.rev (played g));
  eng_isCheck := checked;
  eng_isCheckmate := mated;
  eng_isStalemate := stalemated;
  eng_isGameOver g := mated g || stalemated g
}.

(** A fresh page with the clock started. *)
Definition started : State t :=
  startClocks (ngOnInit (newPage (mk Standard []))).

(** The same with a 3+2 time control. *)
Definition blitz : State t :=
  startClocks (setTimeControl 3 2 (ngOnInit (newPage (mk Standard [])))).

(** Click-to-move: select the origin, then click the destination. *)
Definition play (from to : Square) (s : State t) : State t :=
  onSquareClick 0 to (onSquareClick 0 from s).

Definition after_f3 : State t := play "f2" "f3" started.
Definition after_e5 : State t := play "e7" "e5" after_f3.
Definition after_g4 : State t := play "g2" "g4" after_e5.
Definition after_mate : State t := play "d8" "h4" after_g4.

(** The study position, loaded and started, with the pawn dropped on a8. *)
Definition study : State t := startClocks (loadFEN studyFEN started).
Definition promoting : State t := tryMove "a7" "a8" study.

(** The stalemate position, loaded. *)
Definition stalematePage : State t := loadFEN stalemateFEN started.

(** The position with White in check, loaded and started. *)
Definition inCheck : State t := startClocks (loadFEN inCheckFEN started).

(** [game.board()] of the scripted engine. *)
Definition board (g : t) (r c : nat) : option Piece.t :=
  match squareName (Z.of_nat r) (Z.of_nat c) with
  | Some n => pieceAt (start g) (played g) n
  | None => None
  end.

(** A pointer press on the f2 pawn at the start of the game, and the same
    gesture carried over f3. *)
Definition pressed : State t :=
  onPiecePointerDown "f2" (mkPointerEv 0 false 100 700 (Some "f2")) started.

Definition dragged : State t :=
  onGlobalPointerMove (mkPointerEv 0 false 100 640 (Some "f3")) pressed.

End Script.

(** ** Properties *)

Section Properties.

Context {Game : Type} {E : RulesEngine Game}.

Local Abbreviation State := (State Game).

Implicit Types (s pre : State) (move res : Move.t) (c : Color).

(** Case analysis on the conditions of a handler. *)
Ltac split_cases :=
  repeat (cbn;
    match goal with
    | |- context [if ?b then _ else _] => destruct b eqn:?
    | |- context [match ?x with _ => _ end] => destruct x eqn:?
    end).

(** Reading a field through field updates. *)
Ltac fields :=
  cbn [game redoStack selected lastMoveSquares gameOver promotion baseMs
       incrementMs whiteTimeMs blackTimeMs activeColor running timerId
       gameOverTimeoutId soundOn suppressClickUntil touchDrag checkFlash
       stateTick effects
       with_game with_redoStack with_selected with_lastMoveSquares
       with_gameOver with_promotion with_baseMs with_incrementMs
       with_whiteTimeMs with_blackTimeMs with_activeColor with_running
       with_timerId with_gameOverTimeoutId with_soundOn
       with_suppressClickUntil with_touchDrag with_checkFlash with_stateTick
       with_effects
       emit bumpTick vibrate launchConfetti stopConfetti pauseClocks
       clearGameOverTimeout scheduleGameOver triggerCheckFlash
       setDraggingCursor remaining].

(** *** What each step of the commit may change *)

Lemma playSound_footprint kind s :
  playSound kind s = with_effects (effects (playSound kind s)) s.
Proof. unfold playSound; destruct s; split_cases; reflexivity. Qed.

Lemma moveCue_footprint move s :
  moveCue move s = with_effects (effects (moveCue move s)) s.
Proof.
  unfold moveCue.
  repeat match goal with
         | |- context [if ?b then _ else _] => destruct b
         end;
    try apply playSound_footprint; destruct s; reflexivity.
Qed.

Lemma updateGameOverBanner_footprint s :
  let u := updateGameOverBanner s in
  u = with_effects (effects u)
        (with_gameOverTimeoutId (gameOverTimeoutId u)
           (with_gameOver (gameOver u)
              (with_timerId (timerId u) (with_running (running u) s)))).
Proof.
  unfold updateGameOverBanner.
  destruct (eng_isGameOver (game s)); [|destruct s; reflexivity].
  fields. destruct (eng_isCheckmate (game s)).
  - rewrite playSound_footprint.
    generalize (effects (playSound SndGameover (launchConfetti (pauseClocks s)))).
    intros e. destruct s; reflexivity.
  - destruct (eng_isStalemate (game s)); destruct s; reflexivity.
Qed.

Lemma applyIncrement_footprint move s :
  let a := applyIncrement move s in
  a = with_blackTimeMs (blackTimeMs a) (with_whiteTimeMs (whiteTimeMs a) s).
Proof. unfold applyIncrement; destruct s; split_cases; reflexivity. Qed.

Lemma applyIncrement_remaining move s c :
  remaining c (applyIncrement move s)
  = if (0 <? incrementMs s) && Color_eqb c (Move.color move)
    then remaining c s + incrementMs s
    else remaining c s.
Proof.
  unfold applyIncrement.
  destruct (0 <? incrementMs s), c, (Move.color move); reflexivity.
Qed.

(** Unfold the commit down to the state its steps started from. *)
Ltac through_commit :=
  unfold afterMoveUpdate;
  rewrite applyIncrement_footprint; fields;
  rewrite updateGameOverBanner_footprint; fields;
  rewrite moveCue_footprint; fields.

Lemma afterMoveUpdate_game move s : game (afterMoveUpdate move s) = game s.
Proof. through_commit; reflexivity. Qed.

Lemma afterMoveUpdate_promotion move s :
  promotion (afterMoveUpdate move s) = promotion s.
Proof. through_commit; reflexivity. Qed.

Lemma afterMoveUpdate_redoStack move s : redoStack (afterMoveUpdate move s) = [].
Proof. through_commit; reflexivity. Qed.

Lemma afterMoveUpdate_selected move s : selected (afterMoveUpdate move s) = None.
Proof. through_commit; reflexivity. Qed.

Lemma afterMoveUpdate_lastMove move s :
  lastMoveSquares (afterMoveUpdate move s)
  = {[ Move.from move; Move.to move ]}.
Proof. through_commit; reflexivity. Qed.

(** The clocks after a commit: the increment, when positive, goes to the
    side that moved and to nobody else. *)
Lemma afterMoveUpdate_remaining move s c :
  remaining c (afterMoveUpdate move s)
  = if (0 <? incrementMs s) && Color_eqb c (Move.color move)
    then remaining c s + incrementMs s
    else remaining c s.
Proof.
  unfold afterMoveUpdate. rewrite applyIncrement_remaining. fields.
  rewrite updateGameOverBanner_footprint. fields.
  rewrite moveCue_footprint. destruct c; reflexivity.
Qed.

(** *** C1: the commit protocol *)

Lemma string_eqb_false (a b : string) : a <> b -> String.eqb a b = false.
Proof. intros H. apply String.eqb_neq. exact H. Qed.

Lemma truthy_Some (a : string) : a <> "" -> truthy (Some a) = true.
Proof. intros H. unfold truthy. rewrite (string_eqb_false _ _ H). reflexivity. Qed.

(** Each path hands the engine's answer to [afterMoveUpdate]. *)
Lemma run_commits op s res pre :
  Commits op s res pre -> run op s = afterMoveUpdate res pre.
Proof.
  intros H. destruct H; cbn [run].
  - unfold onSquareClick, clickSelected, applyTarget.
    rewrite H, H0, H1, H2, H3, H4. cbn [isSome orb negb].
    rewrite (string_eqb_false _ _ H5), (string_eqb_false _ _ H6), H7, H8, H9.
    reflexivity.
  - unfold tryMove, applyTarget.
    rewrite H, H0, H1, H2. cbn [isSome orb negb].
    rewrite H3, H4, H5. reflexivity.
  - unfold promote.
    rewrite H, H0, H2, H4. rewrite (truthy_Some _ H1), (truthy_Some _ H3).
    cbn [isSome orb negb]. rewrite H5. reflexivity.
  - unfold redo. rewrite H. fields. rewrite H0. reflexivity.
Qed.

(** A path hands over the session with its clocks as they were. *)
Lemma commits_clocks op s res pre :
  Commits op s res pre ->
  incrementMs pre = incrementMs s /\
  forall c, remaining c pre = remaining c s.
Proof. intros H. destruct H; split; try intros []; reflexivity. Qed.

(** C1. Every successfully applied move, whichever path applied it (click,
    drop, promotion choice or redo), is committed by [afterMoveUpdate] on
    the position the engine produced: the redo stack is empty, nothing is
    selected, the last-move highlight is the pair (from, to) of the move,
    and a positive increment is added to the remaining time of the side
    that moved while the other side's time stays as it was. *)
Theorem commit_protocol op s res pre :
  Commits op s res pre ->
  let s' := run op s in
  s' = afterMoveUpdate res pre /\
  game s' = game pre /\
  redoStack s' = [] /\
  selected s' = None /\
  lastMoveSquares s' = {[ Move.from res; Move.to res ]} /\
  (0 < incrementMs s ->
   remaining (Move.color res) s'
   = remaining (Move.color res) s + incrementMs s /\
   remaining (opposite (Move.color res)) s'
   = remaining (opposite (Move.color res)) s).
Proof.
  intros H s'. subst s'.
  destruct (commits_clocks _ _ _ _ H) as [Hinc Hrem].
  rewrite (run_commits _ _ _ _ H).
  split; [reflexivity|].
  split; [apply afterMoveUpdate_game|].
  split; [apply afterMoveUpdate_redoStack|].
  split; [apply afterMoveUpdate_selected|].
  split; [apply afterMoveUpdate_lastMove|].
  intros Hpos. rewrite !afterMoveUpdate_remaining, Hinc, !Hrem.
  apply Z.ltb_lt in Hpos. rewrite Hpos.
  destruct (Move.color res); cbn; split; reflexivity.
Qed.

(** The four paths are the only way in which they change the position:
    whenever one of them leaves another engine state behind, a move was
    applied and committed. *)
Lemma position_changes_by_commit op s :
  game (run op s) <> game s -> exists res pre, Commits op s res pre.
Proof.
  assert (Hps : forall k t, game (playSound k t) = game t)
    by (intros; rewrite playSound_footprint; reflexivity).
  intros Hne.
  assert (Hsame : game (run op s) = game s -> exists res pre, Commits op s res pre)
    by (intros Heq; contradiction).
  clear Hne. destruct op as [now name | from to | piece |]; cbn [run] in *.
  - revert Hsame. unfold onSquareClick, clickIdle, clickSelected, applyTarget,
      askPromotion, clearSelection.
    destruct (now <? suppressClickUntil s) eqn:H1; [auto|].
    destruct (Promotion.ask (promotion s)) eqn:H2; [auto|].
    destruct (eng_isGameOver (game s)) eqn:H3; [auto|].
    destruct (gameOver s) eqn:H4; [auto|].
    destruct (running s) eqn:H5; [|auto]. cbn [isSome orb negb].
    assert (Hidle :
      game (match eng_get (game s) name with
            | Some piece =>
                if negb (Color_eqb (Piece.color piece) (eng_turn (game s)))
                then playSound SndIllegal
                       (if isCheck s then triggerCheckFlash s else s)
                else if isCheck s && is_nil (eng_moves (game s) name)
                then playSound SndIllegal (triggerCheckFlash s)
                else with_selected (Some name) s
            | None => if isCheck s then triggerCheckFlash s else s
            end) = game s).
    { repeat match goal with
             | |- context [if ?b then _ else _] => destruct b
             | |- context [match ?x with _ => _ end] => destruct x
             end; rewrite ?Hps; reflexivity. }
    destruct (selected s) as [cur|] eqn:H6; [|auto].
    destruct (String.eqb cur "") eqn:H7; [auto|].
    destruct (String.eqb cur name) eqn:H8; [auto|].
    destruct (find_to name (eng_moves (game s) cur)) as [target|] eqn:H9.
    + destruct (includes (Move.flags target) "p") eqn:H10; [auto|].
      destruct (eng_move (game s) (Move.from target) (Move.to target) None)
        as [[res g]|] eqn:H11; [|auto].
      intros _. exists res, (with_game g s).
      eapply commit_click; eauto; apply String.eqb_neq; assumption.
    + intros Hsame. apply Hsame.
      repeat match goal with
             | |- context [if ?b then _ else _] => destruct b
             | |- context [match ?x with _ => _ end] => destruct x
             end; fields; rewrite ?Hps; reflexivity.
  - revert Hsame. unfold tryMove, applyTarget, askPromotion, clearSelection.
    destruct (Promotion.ask (promotion s)) eqn:H2; [auto|].
    destruct (eng_isGameOver (game s)) eqn:H3; [auto|].
    destruct (gameOver s) eqn:H4; [auto|].
    destruct (running s) eqn:H5; [|auto]. cbn [isSome orb negb].
    destruct (find_to to (eng_moves (game s) from)) as [target|] eqn:H9.
    + destruct (includes (Move.flags target) "p") eqn:H10; [auto|].
      destruct (eng_move (game s) (Move.from target) (Move.to target) None)
        as [[res g]|] eqn:H11; [|auto].
      intros _. exists res, (with_game g s).
      eapply commit_drop; eauto.
    + intros Hsame. apply Hsame. fields. apply Hps.
  - revert Hsame. unfold promote.
    destruct (Promotion.ask (promotion s)) eqn:H1; [|auto].
    destruct (Promotion.from (promotion s)) as [from|] eqn:H2; [|auto].
    destruct (Promotion.to (promotion s)) as [to|] eqn:H3;
      [|cbn; rewrite ?orb_true_r; auto].
    destruct (Promotion.color (promotion s)) as [c|] eqn:H4;
      [|cbn; rewrite ?orb_true_r; auto].
    unfold truthy.
    destruct (String.eqb from "") eqn:H5; [auto|].
    destruct (String.eqb to "") eqn:H6; [auto|].
    cbn [isSome orb negb].
    destruct (eng_move (game s) from to (Some piece)) as [[res g]|] eqn:H7;
      [|auto].
    intros _. exists res, (with_promotion Promotion.none (with_game g s)).
    eapply commit_promote; eauto; apply String.eqb_neq; assumption.
  - revert Hsame. unfold redo.
    destruct (redoStack s) as [|move rest] eqn:H1; [auto|]. fields.
    destruct (eng_move_san (game s) (Move.san move)) as [[res g]|] eqn:H2;
      [|auto].
    intros _. exists res, (with_game g (with_redoStack rest s)).
    eapply commit_redo; eauto.
Qed.

(** *** C2: undo, then redo *)

Lemma undo_reverts s m g :
  eng_undo (game s) = Some (m, g) ->
  game (undo s) = g /\
  redoStack (undo s) = m :: redoStack s /\
  selected (undo s) = None /\
  lastMoveSquares (undo s) = ∅.
Proof.
  intros H. unfold undo. rewrite H.
  assert (F : forall t : State,
             (if soundOn t then playSound SndMove t else t)
             = with_effects
                 (effects (if soundOn t then playSound SndMove t else t)) t).
  { intros t. destruct (soundOn t); [apply playSound_footprint|].
    destruct t; reflexivity. }
  rewrite F. fields. rewrite updateGameOverBanner_footprint. fields.
  repeat split; reflexivity.
Qed.

(** [redo] replays the move on top of the redo stack and commits it. *)
Lemma redo_replays s m rest res g :
  redoStack s = m :: rest ->
  eng_move_san (game s) (Move.san m) = Some (res, g) ->
  game (redo s) = g /\
  lastMoveSquares (redo s) = {[ Move.from res; Move.to res ]}.
Proof.
  intros Hs Hm.
  pose proof (run_commits _ _ _ _ (commit_redo s m rest res g Hs Hm)) as R.
  cbn [run] in R. rewrite R.
  split; [apply afterMoveUpdate_game | apply afterMoveUpdate_lastMove].
Qed.

(** Undo then redo from any state: the position comes back, and the
    highlight is the pair of the replayed move. *)
Lemma undo_redo s m g :
  eng_undo (game s) = Some (m, g) ->
  eng_move_san g (Move.san m) = Some (m, game s) ->
  game (redo (undo s)) = game s /\
  lastMoveSquares (redo (undo s)) = {[ Move.from m; Move.to m ]}.
Proof.
  intros Hu Hr.
  destruct (undo_reverts _ _ _ Hu) as (Hg & Hst & _ & _).
  apply redo_replays with (m := m) (rest := redoStack s).
  - exact Hst.
  - rewrite Hg. exact Hr.
Qed.

(** C2 (amended). Where the engine's [undo] takes back the last committed
    move [m] and the SAN of [m] replays it into the position it was taken
    back from, undo followed at once by redo restores the position, and
    leaves as last-move highlight the pair (from, to) of [m]: the value
    before the undo whenever the highlight still showed that move, as it
    does right after the commit of [m]. *)
Theorem undo_redo_restores s m g :
  eng_undo (game s) = Some (m, g) ->
  eng_move_san g (Move.san m) = Some (m, game s) ->
  let back := redo (undo s) in
  game back = game s /\
  lastMoveSquares back = {[ Move.from m; Move.to m ]} /\
  (lastMoveSquares s = {[ Move.from m; Move.to m ]} ->
   lastMoveSquares back = lastMoveSquares s) /\
  (forall pre,
     s = afterMoveUpdate m pre -> lastMoveSquares back = lastMoveSquares s).
Proof.
  intros Hu Hr back. subst back.
  destruct (undo_redo s m g Hu Hr) as [Hg Hl].
  split; [exact Hg|]. split; [exact Hl|]. split.
  - intros Hs. rewrite Hl, Hs. reflexivity.
  - intros pre Hs. rewrite Hl, Hs, afterMoveUpdate_lastMove. reflexivity.
Qed.

(** *** C3: the clock tick *)

Lemma onFlag_footprint s :
  let f := onFlag s in
  f = with_effects (effects f)
        (with_gameOverTimeoutId (gameOverTimeoutId f)
           (with_timerId false (with_running false s))).
Proof.
  unfold onFlag. rewrite playSound_footprint.
  generalize (effects (playSound SndGameover (launchConfetti (pauseClocks s)))).
  intros e. destruct s; reflexivity.
Qed.

Lemma onFlag_remaining s c : remaining c (onFlag s) = remaining c s.
Proof. rewrite onFlag_footprint. destruct c; reflexivity. Qed.

Lemma decrement_remaining nowTurn s c :
  remaining c (decrement nowTurn s)
  = if Color_eqb c nowTurn then remaining c s - 100 else remaining c s.
Proof. destruct c, nowTurn; reflexivity. Qed.

(** C3. While the interval is installed, a tick with a promotion pending
    leaves the whole session as it is (no decrement, no flag check, the
    clock still running); any other tick takes 100 ms from the side the
    engine says is to move, leaves the other side's time alone, and then
    checks for flag-fall. *)
Theorem tick_effect s :
  timerId s = true ->
  (Promotion.ask (promotion s) = true -> intervalFires s = s) /\
  (Promotion.ask (promotion s) = false ->
   let nowTurn := eng_turn (game s) in
   let s' := intervalFires s in
   remaining nowTurn s' = remaining nowTurn s - 100 /\
   remaining (opposite nowTurn) s' = remaining (opposite nowTurn) s /\
   s' = (let d := decrement nowTurn s in if flagFallen d then onFlag d else d)).
Proof.
  intros Ht. unfold intervalFires, tick. rewrite Ht. split.
  - intros Ha. rewrite Ha. reflexivity.
  - intros Ha. rewrite Ha. cbv zeta.
    assert (R : forall c,
      remaining c (if flagFallen (decrement (eng_turn (game s)) s)
                   then onFlag (decrement (eng_turn (game s)) s)
                   else decrement (eng_turn (game s)) s)
      = remaining c (decrement (eng_turn (game s)) s)).
    { intros c. destruct (flagFallen _); [apply onFlag_remaining|reflexivity]. }
    rewrite !R, !decrement_remaining.
    destruct (eng_turn (game s)); cbn; repeat split; reflexivity.
Qed.

(** *** C4: who wins *)

Lemma gameOverTimeoutFires_pending s r :
  gameOverTimeoutId s = Some r ->
  gameOver (gameOverTimeoutFires s) = Some r.
Proof. intros H. unfold gameOverTimeoutFires. rewrite H. reflexivity. Qed.

Lemma updateGameOverBanner_checkmate s :
  eng_isGameOver (game s) = true ->
  eng_isCheckmate (game s) = true ->
  gameOverTimeoutId (updateGameOverBanner s)
  = Some (mkGameOver checkmate "by checkmate"
            (Some (opposite (eng_turn (game s))))).
Proof.
  intros Ho Hm. unfold updateGameOverBanner. rewrite Ho. fields. rewrite Hm.
  reflexivity.
Qed.

Lemma afterMoveUpdate_checkmate res pre :
  eng_isGameOver (game pre) = true ->
  eng_isCheckmate (game pre) = true ->
  gameOverTimeoutId (afterMoveUpdate res pre)
  = Some (mkGameOver checkmate "by checkmate"
            (Some (opposite (eng_turn (game pre))))).
Proof.
  intros Ho Hm.
  unfold afterMoveUpdate. rewrite applyIncrement_footprint. fields.
  rewrite updateGameOverBanner_checkmate;
    rewrite moveCue_footprint; fields; auto.
Qed.

Lemma onFlag_pending s :
  gameOverTimeoutId (onFlag s)
  = Some (mkGameOver time "on time"
            (Some (if whiteTimeMs s <=? 0 then Black else White))).
Proof. reflexivity. Qed.

(** C4. After a mating move is committed, the record published by the
    deferred timeout names as winner the side that is not to move; after a
    flag-fall it names the side whose clock is still above zero; on
    stalemate or another draw the record is set at once, with no winner,
    no confetti, no cue and no timeout. *)
Theorem winner_attribution :
  (forall res pre,
     eng_isGameOver (game pre) = true ->
     eng_isCheckmate (game pre) = true ->
     gameOver (gameOverTimeoutFires (afterMoveUpdate res pre))
     = Some (mkGameOver checkmate "by checkmate"
               (Some (opposite (eng_turn (game pre)))))) /\
  (forall s loser,
     remaining loser s <= 0 ->
     0 < remaining (opposite loser) s ->
     gameOver (gameOverTimeoutFires (onFlag s))
     = Some (mkGameOver time "on time" (Some (opposite loser)))) /\
  (forall s,
     eng_isGameOver (game s) = true ->
     eng_isCheckmate (game s) = false ->
     let s' := updateGameOverBanner s in
     gameOver s'
     = Some (if eng_isStalemate (game s)
             then mkGameOver stalemate "by stalemate" None
             else mkGameOver draw "draw" None) /\
     effects s' = effects s /\
     gameOverTimeoutId s' = gameOverTimeoutId s).
Proof.
  split; [|split].
  - intros res pre Ho Hm. apply gameOverTimeoutFires_pending.
    apply afterMoveUpdate_checkmate; assumption.
  - intros s loser Hl Hw. apply gameOverTimeoutFires_pending.
    rewrite onFlag_pending. destruct loser; cbn [remaining opposite] in *.
    + apply Z.leb_le in Hl. rewrite Hl. reflexivity.
    + assert (H : (whiteTimeMs s <=? 0) = false) by (apply Z.leb_gt; lia).
      rewrite H. reflexivity.
  - intros s Ho Hm. unfold updateGameOverBanner. rewrite Ho. fields.
    rewrite Hm. destruct (eng_isStalemate (game s)); repeat split; reflexivity.
Qed.

(** With an engine that passes the turn to the opponent, the side not to
    move after the mating move is the mover. *)
Lemma checkmate_winner_is_mover res pre :
  eng_isGameOver (game pre) = true ->
  eng_isCheckmate (game pre) = true ->
  eng_turn (game pre) = opposite (Move.color res) ->
  option_map winner (gameOver (gameOverTimeoutFires (afterMoveUpdate res pre)))
  = Some (Some (Move.color res)).
Proof.
  intros Ho Hm Ht.
  rewrite (gameOverTimeoutFires_pending _ _
             (afterMoveUpdate_checkmate res pre Ho Hm)), Ht.
  destruct (Move.color res); reflexivity.
Qed.

(** *** C5: the guards of click and drop *)

(** C5 (amended). Click resolution and drop resolution require that the
    game is not over and that the clock is running: when the engine reports
    game over, the game-over record is set or the clock is stopped, a click
    and a drop change nothing and emit nothing, whatever the destination.
    With the guards passed and no promotion pending, a drop on a square
    that is not a legal destination emits the illegal cue and clears the
    selection; so does a click outside the click-suppression window, with
    a (non-empty) square selected, on another square that is neither a
    legal destination nor a piece of the side to move. *)
Theorem click_and_drop_guarded s :
  (eng_isGameOver (game s) = true \/ gameOver s <> None \/ running s = false ->
   (forall now name, onSquareClick now name s = s) /\
   (forall from to, tryMove from to s = s)) /\
  (Promotion.ask (promotion s) = false ->
   eng_isGameOver (game s) = false ->
   gameOver s = None ->
   running s = true ->
   (forall from to,
      find_to to (eng_moves (game s) from) = None ->
      tryMove from to s = clearSelection (playSound SndIllegal s)) /\
   (forall now currentSel name,
      (now <? suppressClickUntil s) = false ->
      selected s = Some currentSel ->
      currentSel <> "" ->
      currentSel <> name ->
      find_to name (eng_moves (game s) currentSel) = None ->
      option_map Piece.color (eng_get (game s) name)
        <> Some (eng_turn (game s)) ->
      onSquareClick now name s = clearSelection (playSound SndIllegal s))).
Proof.
  split.
  - intros Hv. split.
    + intros now name. unfold onSquareClick.
      destruct (now <? suppressClickUntil s); [reflexivity|].
      destruct (Promotion.ask (promotion s)); [reflexivity|].
      destruct Hv as [Ho | [Hr | Hc]].
      * rewrite Ho. reflexivity.
      * destruct (gameOver s); [|contradiction].
        rewrite orb_true_r. reflexivity.
      * rewrite Hc. destruct (_ || _); reflexivity.
    + intros from to. unfold tryMove.
      destruct Hv as [Ho | [Hr | Hc]].
      * rewrite Ho, orb_true_r. reflexivity.
      * destruct (gameOver s); [|contradiction].
        cbn [isSome]. rewrite orb_true_r. reflexivity.
      * rewrite Hc. cbn [negb]. rewrite orb_true_r. reflexivity.
  - intros Ha Ho Hg Hr. split.
    + intros from to Hf. unfold tryMove.
      rewrite Ha, Ho, Hg, Hr, Hf. reflexivity.
    + intros now cur name Hn Hs Hc Hne Hf Hp. unfold onSquareClick, clickSelected.
      rewrite Hn, Ha, Ho, Hg, Hr, Hs. cbn [isSome orb negb].
      rewrite (string_eqb_false _ _ Hc), (string_eqb_false _ _ Hne), Hf.
      destruct (eng_get (game s) name) as [piece|]; [|reflexivity].
      destruct (Piece.color piece) eqn:Hpc, (eng_turn (game s)) eqn:Ht;
        cbn [Color_eqb option_map] in *; try reflexivity;
        rewrite Hpc in Hp; contradiction.
Qed.

(** *** C6: the deferred game-over record *)

(** A dismissal cancels the pending timeout: nothing is published later. *)
Lemma dismiss_cancels s :
  gameOver (gameOverTimeoutFires (dismissGameOver s)) = None.
Proof. reflexivity. Qed.

(** [reset] does not: whatever timeout is pending stays pending. *)
Lemma reset_keeps_timeout s :
  eng_isGameOver (eng_reset (game s)) = false ->
  gameOverTimeoutId (reset s) = gameOverTimeoutId s.
Proof.
  intros H. unfold reset. fields. unfold updateGameOverBanner. fields.
  rewrite H. reflexivity.
Qed.

(** *** C7: press, threshold and selection *)

Lemma crossedThreshold_spec dx dy :
  crossedThreshold dx dy = true <-> 4 * 4 < dx * dx + dy * dy.
Proof. unfold crossedThreshold. rewrite Z.ltb_lt. lia. Qed.

Lemma refusePress_selected flash s :
  selected (refusePress flash s) = selected s.
Proof.
  unfold refusePress. rewrite playSound_footprint. destruct flash; reflexivity.
Qed.

Lemma pressGuard_selected refuse accept from s :
  (forall flash t, selected (refuse flash t) = selected t) ->
  selected (accept s) = selected s ->
  selected (pressGuard refuse accept from s) = selected s.
Proof.
  intros Hr Ha. unfold pressGuard.
  repeat match goal with
         | |- context [if ?b then _ else _] => destruct b
         | |- context [match ?x with _ => _ end] => destruct x
         end; auto.
Qed.

(** C7 (amended). With a pointer or a mouse, pressing on a piece never
    sets the selection; a move event selects the pressed square exactly
    when it first carries the gesture more than 4 pixels away from the
    press point; a release before that leaves the selection to the click
    handler.  With a touch, an accepted press on a piece of the side to
    move selects its square at once, and touch moves do not change the
    selection. *)
Theorem press_and_threshold :
  (forall from ev s,
     selected (onPiecePointerDown from ev s) = selected s /\
     selected (onMouseDownPiece from ev s) = selected s) /\
  (forall ev s,
     selected (onGlobalPointerMove ev s)
     = match touchDrag s with
       | Some d =>
           if negb (moved d)
              && crossedThreshold (clientX ev - startX d) (clientY ev - startY d)
           then Some (drag_from d)
           else selected s
       | None => selected s
       end /\
     onGlobalMouseMove ev s = onGlobalPointerMove ev s) /\
  (forall now d s,
     touchDrag s = Some d ->
     moved d = false ->
     selected (onGlobalPointerUp now s) = selected s /\
     selected (onGlobalMouseUp now s) = selected s) /\
  (forall from t s piece,
     Promotion.ask (promotion s) = false ->
     eng_isGameOver (game s) = false ->
     gameOver s = None ->
     eng_get (game s) from = Some piece ->
     Piece.color piece = eng_turn (game s) ->
     isCheck s && is_nil (eng_moves (game s) from) = false ->
     selected (onPieceTouchStart from [t] s) = Some from) /\
  (forall touches s, selected (onGlobalTouchMove touches s) = selected s).
Proof.
  split; [|split; [|split; [|split]]].
  - intros from ev s. split.
    + unfold onPiecePointerDown.
      destruct (negb (button ev =? 0)); [reflexivity|].
      destruct (pointerIsMouse ev); [reflexivity|].
      apply pressGuard_selected; [apply refusePress_selected | reflexivity].
    + unfold onMouseDownPiece.
      destruct (negb (button ev =? 0)); [reflexivity|].
      apply pressGuard_selected; [apply refusePress_selected | reflexivity].
  - intros ev s. split; [|reflexivity].
    unfold onGlobalPointerMove.
    destruct (touchDrag s) as [d|]; [|reflexivity].
    destruct (negb (moved d) && crossedThreshold _ _); reflexivity.
  - intros now d s Hd Hm.
    unfold onGlobalPointerUp, onGlobalMouseUp, dropIfMoved.
    rewrite Hd, Hm. split; reflexivity.
  - intros from t s piece Ha Ho Hg Hp Hc Hl.
    unfold onPieceTouchStart, pressGuard.
    rewrite Ha, Ho, Hg, Hp, Hc, Hl. cbn [isSome orb].
    destruct (eng_turn (game s)); reflexivity.
  - intros touches s. unfold onGlobalTouchMove.
    destruct (touchDrag s) as [d|]; [|reflexivity].
    destruct touches as [|t [|]]; reflexivity.
Qed.

(** *** C8: a tap with nothing selected *)

(** C8. With nothing selected, an accepted tap (no click suppression, no
    promotion pending, game not over, clock running) on a piece of the side
    to move selects its square, unless the side to move is in check and
    that piece has no legal move: then the tap emits the check flash and
    the illegal cue, and nothing is selected. *)
Theorem idle_tap_selects now name s piece :
  (now <? suppressClickUntil s) = false ->
  Promotion.ask (promotion s) = false ->
  eng_isGameOver (game s) = false ->
  gameOver s = None ->
  running s = true ->
  selected s = None ->
  eng_get (game s) name = Some piece ->
  Piece.color piece = eng_turn (game s) ->
  let s' := onSquareClick now name s in
  if isCheck s && is_nil (eng_moves (game s) name)
  then s' = playSound SndIllegal (triggerCheckFlash s) /\
       selected s' = None /\
       checkFlash s' = true /\
       In CheckFlash (effects s') /\
       In (Vibrate [30]) (effects s') /\
       (soundOn s = true -> In (Audio SndIllegal) (effects s'))
  else s' = with_selected (Some name) s.
Proof.
  intros Hn Ha Ho Hg Hr Hs Hp Hc s'. subst s'.
  unfold onSquareClick, clickIdle.
  rewrite Hn, Ha, Ho, Hg, Hr, Hs, Hp, Hc. cbn [isSome orb negb].
  replace (Color_eqb (eng_turn (game s)) (eng_turn (game s))) with true
    by (destruct (eng_turn (game s)); reflexivity).
  cbn [negb].
  destruct (isCheck s && is_nil (eng_moves (game s) name)); [|reflexivity].
  split; [reflexivity|].
  unfold playSound. fields.
  destruct (soundOn s) eqn:Hsnd; cbn; intuition congruence.
Qed.

(** *** C9: a tap on the selected square *)

Lemma reset_lastMove s : lastMoveSquares (reset s) = ∅.
Proof.
  unfold reset. fields. rewrite updateGameOverBanner_footprint. reflexivity.
Qed.

Lemma loadFEN_lastMove fenStr s g :
  eng_load (game s) fenStr = Some g ->
  lastMoveSquares (loadFEN fenStr s) = ∅.
Proof.
  intros H. unfold loadFEN. rewrite H. fields.
  rewrite updateGameOverBanner_footprint. reflexivity.
Qed.

(** C9 (amended). An accepted tap on the selected square clears the
    selection and also the last-move highlight, and bumps the state tick;
    every other field of the session, the effect log included, is as it
    was.  The highlight is set by every commit and cleared by [reset] and
    by a successful [loadFEN]. *)
Theorem deselect_by_tap s :
  (forall now name,
     (now <? suppressClickUntil s) = false ->
     Promotion.ask (promotion s) = false ->
     eng_isGameOver (game s) = false ->
     gameOver s = None ->
     running s = true ->
     selected s = Some name ->
     name <> "" ->
     onSquareClick now name s
     = with_stateTick (stateTick s + 1)
         (with_lastMoveSquares ∅ (with_selected None s))) /\
  (forall move,
     lastMoveSquares (afterMoveUpdate move s)
     = {[ Move.from move; Move.to move ]}) /\
  lastMoveSquares (reset s) = ∅ /\
  (forall fenStr g,
     eng_load (game s) fenStr = Some g ->
     lastMoveSquares (loadFEN fenStr s) = ∅).
Proof.
  split; [|split; [|split]].
  - intros now name Hn Ha Ho Hg Hr Hs Hne. unfold onSquareClick, clickSelected.
    rewrite Hn, Ha, Ho, Hg, Hr, Hs. cbn [isSome orb negb].
    rewrite (string_eqb_false _ _ Hne), String.eqb_refl. reflexivity.
  - intros move. apply afterMoveUpdate_lastMove.
  - apply reset_lastMove.
  - intros fenStr g. apply loadFEN_lastMove.
Qed.

(** *** C10: the promotion choice *)

(** The three outcomes of [promote]: nothing to do, a committed
    promotion with the record cleared, or a rejected move, which leaves
    the session as it was, the record still pending. *)
Lemma promote_outcomes piece s :
  (Promotion.ask (promotion s) = false \/
   Promotion.from (promotion s) = None \/
   Promotion.to (promotion s) = None \/
   Promotion.color (promotion s) = None ->
   promote piece s = s) /\
  (forall from to c,
     Promotion.ask (promotion s) = true ->
     Promotion.from (promotion s) = Some from ->
     from <> "" ->
     Promotion.to (promotion s) = Some to ->
     to <> "" ->
     Promotion.color (promotion s) = Some c ->
     (forall res g,
        eng_move (game s) from to (Some piece) = Some (res, g) ->
        promotion (promote piece s) = Promotion.none /\
        game (promote piece s) = g) /\
     (eng_move (game s) from to (Some piece) = None ->
      promote piece s = s)).
Proof.
  split.
  - intros H. unfold promote.
    destruct H as [H | [H | [H | H]]]; rewrite H; cbn [truthy isSome negb];
      rewrite ?orb_true_r; reflexivity.
  - intros from to c Ha Hf Hfe Ht Hte Hc. unfold promote.
    rewrite Ha, Hf, Ht, Hc, (truthy_Some _ Hfe), (truthy_Some _ Hte).
    cbn [isSome orb negb]. split.
    + intros res g Hm. rewrite Hm.
      rewrite afterMoveUpdate_promotion, afterMoveUpdate_game.
      split; reflexivity.
    + intros Hm. rewrite Hm. reflexivity.
Qed.

(** *** What every handler is made of

    Every entry point changes the session only through a few primitive
    updates: the clock is touched by pausing and starting, the effect log
    by emitting, and an audio effect is emitted only with the sound on.  A
    property kept by these primitives is kept by every action except the
    sound toggle. *)

Section Preservation.

Variable P : State -> Prop.

Hypothesis P_game : forall v s, P s -> P (with_game v s).
Hypothesis P_redoStack : forall v s, P s -> P (with_redoStack v s).
Hypothesis P_selected : forall v s, P s -> P (with_selected v s).
Hypothesis P_lastMoveSquares : forall v s, P s -> P (with_lastMoveSquares v s).
Hypothesis P_gameOver : forall v s, P s -> P (with_gameOver v s).
Hypothesis P_promotion : forall v s, P s -> P (with_promotion v s).
Hypothesis P_baseMs : forall v s, P s -> P (with_baseMs v s).
Hypothesis P_incrementMs : forall v s, P s -> P (with_incrementMs v s).
Hypothesis P_whiteTimeMs : forall v s, P s -> P (with_whiteTimeMs v s).
Hypothesis P_blackTimeMs : forall v s, P s -> P (with_blackTimeMs v s).
Hypothesis P_activeColor : forall v s, P s -> P (with_activeColor v s).
Hypothesis P_gameOverTimeoutId :
  forall v s, P s -> P (with_gameOverTimeoutId v s).
Hypothesis P_suppressClickUntil :
  forall v s, P s -> P (with_suppressClickUntil v s).
Hypothesis P_touchDrag : forall v s, P s -> P (with_touchDrag v s).
Hypothesis P_checkFlash : forall v s, P s -> P (with_checkFlash v s).
Hypothesis P_stateTick : forall v s, P s -> P (with_stateTick v s).
Hypothesis P_pause : forall s, P s -> P (pauseClocks s).
Hypothesis P_start :
  forall s, P s -> P (with_timerId true (with_running true s)).
Hypothesis P_emit : forall e s, isAudio e = false -> P s -> P (emit e s).
Hypothesis P_audio :
  forall kind s, soundOn s = true -> P s -> P (emit (Audio kind) s).

Create HintDb kept.

Local Hint Resolve P_game P_redoStack P_selected P_lastMoveSquares P_gameOver
  P_promotion P_baseMs P_incrementMs P_whiteTimeMs P_blackTimeMs
  P_activeColor P_gameOverTimeoutId P_suppressClickUntil P_touchDrag
  P_checkFlash P_stateTick P_pause P_start P_emit P_audio : kept.

(** Split on the conditions of a handler, then rebuild [P] update by
    update. *)
Ltac kept :=
  cbv zeta;
  repeat match goal with
         | |- context [if ?b then _ else _] => destruct b eqn:?
         | |- context [match ?x with _ => _ end] => destruct x eqn:?
         end;
  auto 12 with kept.

Lemma kept_playSound kind s : P s -> P (playSound kind s).
Proof.
  intros H. unfold playSound, vibrate.
  assert (V : forall pattern, P (emit (Vibrate pattern) s)) by auto with kept.
  destruct kind; kept.
Qed.
Local Hint Resolve kept_playSound : kept.

Lemma kept_triggerCheckFlash s : P s -> P (triggerCheckFlash s).
Proof. intros H. unfold triggerCheckFlash. kept. Qed.
Local Hint Resolve kept_triggerCheckFlash : kept.

Lemma kept_clearSelection s : P s -> P (clearSelection s).
Proof. intros H. unfold clearSelection, bumpTick. kept. Qed.
Local Hint Resolve kept_clearSelection : kept.

Lemma kept_onFlag s : P s -> P (onFlag s).
Proof.
  intros H. unfold onFlag, scheduleGameOver, clearGameOverTimeout,
    launchConfetti. kept.
Qed.
Local Hint Resolve kept_onFlag : kept.

Lemma kept_updateGameOverBanner s : P s -> P (updateGameOverBanner s).
Proof.
  intros H. unfold updateGameOverBanner, scheduleGameOver,
    clearGameOverTimeout, launchConfetti. kept.
Qed.
Local Hint Resolve kept_updateGameOverBanner : kept.

Lemma kept_moveCue move s : P s -> P (moveCue move s).
Proof. intros H. unfold moveCue. kept. Qed.
Local Hint Resolve kept_moveCue : kept.

Lemma kept_applyIncrement move s : P s -> P (applyIncrement move s).
Proof. intros H. unfold applyIncrement. kept. Qed.
Local Hint Resolve kept_applyIncrement : kept.

Lemma kept_afterMoveUpdate move s : P s -> P (afterMoveUpdate move s).
Proof. intros H. unfold afterMoveUpdate, bumpTick. kept. Qed.
Local Hint Resolve kept_afterMoveUpdate : kept.

Lemma kept_applyTarget target s : P s -> P (applyTarget target s).
Proof. intros H. unfold applyTarget. kept. Qed.
Local Hint Resolve kept_applyTarget : kept.

Lemma kept_tryMove from to s : P s -> P (tryMove from to s).
Proof. intros H. unfold tryMove, askPromotion. kept. Qed.
Local Hint Resolve kept_tryMove : kept.

Lemma kept_onSquareClick now name s : P s -> P (onSquareClick now name s).
Proof.
  intros H. unfold onSquareClick, clickIdle, clickSelected, askPromotion.
  kept.
Qed.

Lemma kept_pressGuard refuse accept from s :
  (forall flash t, P t -> P (refuse flash t)) ->
  (forall t, P t -> P (accept t)) ->
  P s -> P (pressGuard refuse accept from s).
Proof. intros Hr Ha H. unfold pressGuard. kept. Qed.

Lemma kept_refusePress flash s : P s -> P (refusePress flash s).
Proof. intros H. unfold refusePress. kept. Qed.

Lemma kept_refuseTouch flash s : P s -> P (refuseTouch flash s).
Proof. intros H. unfold refuseTouch. kept. Qed.

Lemma kept_dropIfMoved now d s : P s -> P (dropIfMoved now d s).
Proof. intros H. unfold dropIfMoved. kept. Qed.
Local Hint Resolve kept_dropIfMoved : kept.

Lemma kept_undo s : P s -> P (undo s).
Proof. intros H. unfold undo, bumpTick. kept. Qed.

Lemma kept_redo s : P s -> P (redo s).
Proof. intros H. unfold redo. kept. Qed.

Lemma kept_promote piece s : P s -> P (promote piece s).
Proof. intros H. unfold promote. kept. Qed.

Lemma kept_reset s : P s -> P (reset s).
Proof. intros H. unfold reset, bumpTick, stopConfetti. kept. Qed.

Lemma kept_loadFEN fenStr s : P s -> P (loadFEN fenStr s).
Proof. intros H. unfold loadFEN, bumpTick. kept. Qed.

(** Every action but the sound toggle keeps [P]. *)
Lemma kept_step a s : a <> AToggleSound -> P s -> P (step a s).
Proof.
  intros Ha H. destruct a; cbn [step].
  - apply kept_updateGameOverBanner, H.
  - unfold ngOnDestroy, clearGameOverTimeout, stopConfetti. kept.
  - apply kept_onSquareClick, H.
  - unfold onPiecePointerDown, beginDrag.
    destruct (negb (button ev =? 0)); [exact H|].
    destruct (pointerIsMouse ev); [exact H|].
    apply kept_pressGuard; auto using kept_refusePress with kept.
  - unfold onMouseDownPiece, beginDrag.
    destruct (negb (button ev =? 0)); [exact H|].
    apply kept_pressGuard; auto using kept_refusePress with kept.
  - unfold onPieceTouchStart, beginDrag.
    destruct touches as [|t [|]]; try exact H.
    apply kept_pressGuard; auto using kept_refuseTouch with kept.
  - unfold onGlobalPointerMove, setDraggingCursor. kept.
  - unfold onGlobalMouseMove, onGlobalPointerMove, setDraggingCursor. kept.
  - unfold onGlobalTouchMove. kept.
  - unfold onGlobalPointerUp, setDraggingCursor. kept.
  - unfold onGlobalMouseUp. kept.
  - unfold onGlobalTouchEnd. kept.
  - unfold cancelActiveDrag, setDraggingCursor. kept.
  - apply kept_promote, H.
  - apply kept_undo, H.
  - apply kept_redo, H.
  - apply kept_reset, H.
  - apply kept_loadFEN, H.
  - unfold startClocks. kept.
  - auto with kept.
  - unfold resetClocks. kept.
  - unfold setTimeControl. kept.
  - unfold dismissGameOver, clearGameOverTimeout, stopConfetti. kept.
  - contradiction.
  - unfold intervalFires, tick, decrement. kept.
  - unfold gameOverTimeoutFires. kept.
  - unfold checkFlashTimeout. kept.
Qed.

(** And so does every run without the sound toggle. *)
Lemma kept_steps l s :
  Forall (fun a => a <> AToggleSound) l -> P s -> P (steps l s).
Proof.
  unfold steps. revert s.
  induction l as [|a l IH]; intros s Hl H; [exact H|].
  inversion Hl; subst. cbn [fold_left].
  apply IH; [assumption|]. apply kept_step; assumption.
Qed.

End Preservation.

(** *** The clock *)

(** X1. The [running] signal and the interval handle always agree: if they
    do at some point, they do after any run of the session's actions. *)
Theorem clock_handle_invariant l s :
  running s = timerId s ->
  running (steps l s) = timerId (steps l s).
Proof.
  unfold steps. revert s.
  induction l as [|a l IH]; intros s H; [exact H|].
  cbn [fold_left]. apply IH.
  destruct a;
    try (apply (kept_step (fun t => running t = timerId t));
         try discriminate; try assumption; intros; try assumption;
         reflexivity).
  exact H.
Qed.

(** X2. Starting a running clock and pausing a paused one change nothing,
    and whatever the clock was doing, pausing after starting is pausing. *)
Theorem start_pause_laws s :
  startClocks (startClocks s) = startClocks s /\
  pauseClocks (pauseClocks s) = pauseClocks s /\
  pauseClocks (startClocks s) = pauseClocks s /\
  (running s = true -> startClocks s = s) /\
  (running s = false -> timerId s = false -> pauseClocks s = s).
Proof.
  unfold startClocks, pauseClocks.
  destruct s as [g rs se lm go pr ba inc w b ac ru ti gt so su td cf st ef].
  cbn. destruct ru; cbn; repeat split; try reflexivity;
    intros; subst; try discriminate; reflexivity.
Qed.

(** X3. A tick never adds time: each clock after the interval fired is at
    most what it was, and at least 100 ms less than that. *)
Theorem tick_never_adds_time s c :
  remaining c s - 100 <= remaining c (intervalFires s) <= remaining c s.
Proof.
  unfold intervalFires, tick.
  destruct (timerId s); [|lia].
  destruct (Promotion.ask (promotion s)); [lia|]. cbv zeta.
  assert (R :
    remaining c (if flagFallen (decrement (eng_turn (game s)) s)
                 then onFlag (decrement (eng_turn (game s)) s)
                 else decrement (eng_turn (game s)) s)
    = remaining c (decrement (eng_turn (game s)) s)).
  { destruct (flagFallen _); [apply onFlag_remaining|reflexivity]. }
  rewrite R, decrement_remaining.
  destruct (Color_eqb c (eng_turn (game s))); lia.
Qed.

Lemma onFlag_stops s : running (onFlag s) = false /\ timerId (onFlag s) = false.
Proof. rewrite onFlag_footprint. split; reflexivity. Qed.

(** X4. Flag-fall: when the tick takes the last 100 ms (or less) of the
    side to move, the clock is stopped on the spot, later intervals do
    nothing, the game-over record is not shown yet, and the timeout that
    was scheduled publishes a loss on time, won by the other side if that
    side still has time. *)
Theorem flag_fall_stops_the_clock s :
  timerId s = true ->
  Promotion.ask (promotion s) = false ->
  remaining (eng_turn (game s)) s <= 100 ->
  let s' := intervalFires s in
  running s' = false /\
  timerId s' = false /\
  intervalFires s' = s' /\
  gameOver s' = gameOver s /\
  (0 < remaining (opposite (eng_turn (game s))) s ->
   gameOver (gameOverTimeoutFires s')
   = Some (mkGameOver time "on time" (Some (opposite (eng_turn (game s)))))).
Proof.
  intros Ht Ha Hlow s'.
  set (d := decrement (eng_turn (game s)) s).
  assert (Hd : forall c, remaining c d
               = if Color_eqb c (eng_turn (game s))
                 then remaining c s - 100 else remaining c s)
    by (intros c; apply decrement_remaining).
  pose proof (Hd White) as Hw. pose proof (Hd Black) as Hb.
  cbn [remaining] in Hw, Hb.
  assert (Hf : flagFallen d = true).
  { unfold flagFallen.
    destruct (eng_turn (game s)); cbn [Color_eqb remaining] in *.
    - apply orb_true_iff. left. apply Z.leb_le. lia.
    - apply orb_true_iff. right. apply Z.leb_le. lia. }
  assert (Hs' : s' = onFlag d).
  { subst s'. unfold intervalFires, tick. rewrite Ht, Ha. cbv zeta.
    fold d. rewrite Hf. reflexivity. }
  rewrite Hs'. destruct (onFlag_stops d) as [Hr Hti].
  split; [exact Hr|]. split; [exact Hti|].
  split; [unfold intervalFires; rewrite Hti; reflexivity|].
  split.
  - rewrite onFlag_footprint. subst d.
    destruct (eng_turn (game s)); reflexivity.
  - intros Hother. apply gameOverTimeoutFires_pending.
    rewrite onFlag_pending.
    destruct (eng_turn (game s)); cbn [Color_eqb remaining opposite] in *.
    + assert (L : (whiteTimeMs d <=? 0) = true) by (apply Z.leb_le; lia).
      rewrite L. reflexivity.
    + assert (L : (whiteTimeMs d <=? 0) = false) by (apply Z.leb_gt; lia).
      rewrite L. reflexivity.
Qed.

(** *** Commits *)

Lemma playSound_effects kind s :
  effects (playSound kind s)
  = ((if soundOn s then [Audio kind] else [])
     ++ match kind with
        | SndIllegal => [Vibrate [30]]
        | SndGameover => [Vibrate [30; 60; 30]]
        | _ => []
        end ++ effects s)%list.
Proof. unfold playSound. destruct kind, (soundOn s) eqn:Hs; cbn; rewrite ?Hs; reflexivity. Qed.

(** X5. A mating move stops the clock at the commit itself, while the
    game-over record stays as it was until the timeout; the commit emits
    the confetti and the game-over cue and no move cue. *)
Theorem checkmate_commit res pre :
  eng_isGameOver (game pre) = true ->
  eng_isCheckmate (game pre) = true ->
  let s' := afterMoveUpdate res pre in
  running s' = false /\
  timerId s' = false /\
  gameOver s' = gameOver pre /\
  effects s'
  = ((if soundOn pre then [Audio SndGameover] else [])
     ++ [Vibrate [30; 60; 30]; Confetti] ++ effects pre)%list.
Proof.
  intros Ho Hm s'. subst s'.
  set (t := with_lastMoveSquares {[ Move.from res; Move.to res ]}
              (with_selected None (with_redoStack [] pre))).
  assert (Hcue : moveCue res t = t).
  { unfold moveCue. replace (eng_isCheckmate (game t)) with true.
    destruct (soundOn t); reflexivity. }
  assert (Hb : updateGameOverBanner t
               = scheduleGameOver
                   (mkGameOver checkmate "by checkmate"
                      (Some (opposite (eng_turn (game pre)))))
                   (clearGameOverTimeout
                      (playSound SndGameover
                         (launchConfetti (pauseClocks t))))).
  { unfold updateGameOverBanner.
    replace (eng_isGameOver (game t)) with true.
    replace (eng_isCheckmate (game (pauseClocks t))) with true.
    reflexivity. }
  assert (Hs : afterMoveUpdate res pre
               = applyIncrement res (bumpTick (updateGameOverBanner t))).
  { unfold afterMoveUpdate. fold t. rewrite Hcue. reflexivity. }
  rewrite Hs, Hb, applyIncrement_footprint. fields.
  rewrite playSound_footprint. fields. rewrite playSound_effects. fields.
  repeat split; reflexivity.
Qed.

(** X6. A committed move that does not end the game emits exactly one cue
    when the sound is on and nothing otherwise; check outranks castling,
    castling a capture, a capture the plain move. *)
Theorem one_cue_per_commit res pre :
  eng_isGameOver (game pre) = false ->
  eng_isCheckmate (game pre) = false ->
  let s' := afterMoveUpdate res pre in
  (soundOn pre = false -> effects s' = effects pre) /\
  (soundOn pre = true ->
   exists kind,
     effects s' = Audio kind :: effects pre /\
     (eng_isCheck (game pre) = true -> kind = SndCheck) /\
     (eng_isCheck (game pre) = false ->
      includes (Move.flags res) "k" || includes (Move.flags res) "q" = true ->
      kind = SndCastle) /\
     (eng_isCheck (game pre) = false ->
      includes (Move.flags res) "k" || includes (Move.flags res) "q" = false ->
      kind = if isSome (Move.captured res) || includes (Move.flags res) "c"
                || includes (Move.flags res) "e"
             then SndCapture else SndMove)).
Proof.
  intros Ho Hm s'. subst s'.
  assert (Eff : effects (afterMoveUpdate res pre)
                = effects (moveCue res
                             (with_lastMoveSquares
                                {[ Move.from res; Move.to res ]}
                                (with_selected None (with_redoStack [] pre))))).
  { unfold afterMoveUpdate. rewrite applyIncrement_footprint. fields.
    unfold updateGameOverBanner. rewrite moveCue_footprint at 1. fields.
    rewrite Ho. reflexivity. }
  rewrite Eff. unfold moveCue. fields. rewrite Hm. split.
  - intros Hs. rewrite Hs. reflexivity.
  - intros Hs. rewrite Hs.
    destruct (eng_isCheck (game pre)).
    + exists SndCheck. rewrite playSound_effects. fields. rewrite Hs.
      repeat split; try reflexivity; discriminate.
    + destruct (includes (Move.flags res) "k" || includes (Move.flags res) "q").
      * exists SndCastle. rewrite playSound_effects. fields. rewrite Hs.
        repeat split; try reflexivity; discriminate.
      * destruct (isSome (Move.captured res) || includes (Move.flags res) "c"
                  || includes (Move.flags res) "e");
          eexists; rewrite playSound_effects; fields; rewrite Hs;
          repeat split; try reflexivity; discriminate.
Qed.

(** *** Sound *)

(** X7. With the sound off, no run of the session that leaves the toggle
    alone adds an audio effect to the log, and the sound stays off. *)
Theorem muted_session_is_silent l s :
  soundOn s = false ->
  Forall (fun a => a <> AToggleSound) l ->
  soundOn (steps l s) = false /\
  exists new,
    effects (steps l s) = (new ++ effects s)%list /\
    Forall (fun e => isAudio e = false) new.
Proof.
  intros Hs Hl.
  apply (kept_steps
           (fun t => soundOn t = false /\
                     exists new,
                       effects t = (new ++ effects s)%list /\
                       Forall (fun e => isAudio e = false) new));
    try (intros v t H; exact H); try (intros t H; exact H); try assumption.
  - intros e t He (Ht & new & Hn & Hf). split; [exact Ht|].
    exists (e :: new). cbn. rewrite Hn. split; [reflexivity|].
    constructor; assumption.
  - intros kind t Hon (Ht & _). congruence.
  - split; [exact Hs|]. exists []. split; [reflexivity | constructor].
Qed.

(** *** Promotion *)

(** X8. A drop or a click on a destination the engine flags as a promotion
    only records the pending choice: the position and everything else stay
    as they were.  While the choice is pending, clicks, drops, presses of
    every modality and clock ticks leave the session untouched. *)
Theorem promotion_gate s :
  (Promotion.ask (promotion s) = false ->
   eng_isGameOver (game s) = false ->
   gameOver s = None ->
   running s = true ->
   forall from to target,
     find_to to (eng_moves (game s) from) = Some target ->
     includes (Move.flags target) "p" = true ->
     let pending :=
       with_promotion
         (Promotion.mk true (Some (Move.color target))
            (Some (Move.from target)) (Some (Move.to target))) s in
     tryMove from to s = pending /\
     (forall now,
        (now <? suppressClickUntil s) = false ->
        selected s = Some from -> from <> "" -> from <> to ->
        onSquareClick now to s = pending)) /\
  (Promotion.ask (promotion s) = true ->
   (forall now name, onSquareClick now name s = s) /\
   (forall from to, tryMove from to s = s) /\
   (forall from ev,
      onPiecePointerDown from ev s = s /\ onMouseDownPiece from ev s = s) /\
   (forall from touches, onPieceTouchStart from touches s = s) /\
   intervalFires s = s).
Proof.
  split.
  - intros Ha Ho Hg Hr from to target Hf Hp pending. subst pending. split.
    + unfold tryMove. rewrite Ha, Ho, Hg, Hr, Hf, Hp. reflexivity.
    + intros now Hn Hs Hfe Hne. unfold onSquareClick, clickSelected.
      rewrite Hn, Ha, Ho, Hg, Hr, Hs. cbn [isSome orb negb].
      rewrite (string_eqb_false _ _ Hfe), (string_eqb_false _ _ Hne), Hf, Hp.
      reflexivity.
  - intros Ha. repeat split.
    + intros now name. unfold onSquareClick. rewrite Ha.
      destruct (now <? suppressClickUntil s); reflexivity.
    + intros from to. unfold tryMove. rewrite Ha. reflexivity.
    + unfold onPiecePointerDown, pressGuard. rewrite Ha.
      destruct (negb (button ev =? 0)), (pointerIsMouse ev); reflexivity.
    + unfold onMouseDownPiece, pressGuard. rewrite Ha.
      destruct (negb (button ev =? 0)); reflexivity.
    + intros from touches. unfold onPieceTouchStart, pressGuard. rewrite Ha.
      destruct touches as [|t [|]]; reflexivity.
    + unfold intervalFires, tick. rewrite Ha.
      destruct (timerId s); reflexivity.
Qed.

(** *** Drags *)

(** X9. A release that is not a drop (the gesture never crossed the
    threshold, or it ends over no square, or over the square it started
    from) only ends the drag: no move is tried, and position, selection
    and click suppression are as the drag left them.  A release with no
    drag in progress does nothing. *)
Theorem release_without_drop now s :
  (touchDrag s = None ->
   onGlobalPointerUp now s = s /\
   onGlobalMouseUp now s = s /\
   onGlobalTouchEnd now s = s) /\
  (forall d,
     touchDrag s = Some d ->
     moved d = false \/
     currentOverSquare d = None \/
     currentOverSquare d = Some (drag_from d) ->
     onGlobalPointerUp now s
     = setDraggingCursor false (with_touchDrag None s) /\
     onGlobalMouseUp now s = with_touchDrag None s /\
     onGlobalTouchEnd now s = with_touchDrag None s).
Proof.
  unfold onGlobalPointerUp, onGlobalMouseUp, onGlobalTouchEnd. split.
  - intros H. rewrite H. repeat split.
  - intros d Hd Hcase. rewrite Hd.
    assert (Hdrop : dropIfMoved now d s = s).
    { unfold dropIfMoved. destruct Hcase as [Hm | [Hn | Ho]].
      - rewrite Hm. reflexivity.
      - rewrite Hn. destruct (moved d); reflexivity.
      - rewrite Ho, String.eqb_refl, andb_false_r.
        destruct (moved d); reflexivity. }
    rewrite Hdrop. repeat split.
Qed.

(** X10. A real drop (threshold crossed, released over another square)
    opens the click-suppression window whether or not the move was legal:
    the drag is over, and a click in the next 250 ms changes nothing. *)
Theorem drop_suppresses_click now s d over :
  touchDrag s = Some d ->
  moved d = true ->
  currentOverSquare d = Some over ->
  over <> "" ->
  over <> drag_from d ->
  forall up,
    up = onGlobalPointerUp \/ up = onGlobalMouseUp \/ up = onGlobalTouchEnd ->
    touchDrag (up now s) = None /\
    suppressClickUntil (up now s) = now + 250 /\
    forall t name, t < now + 250 -> onSquareClick t name (up now s) = up now s.
Proof.
  intros Hd Hm Ho Hne Hnf up Hup.
  assert (Hdrop : dropIfMoved now d s
                  = with_suppressClickUntil (now + 250)
                      (tryMove (drag_from d) over s)).
  { unfold dropIfMoved. rewrite Hm, Ho, (truthy_Some _ Hne),
      (string_eqb_false _ _ Hnf). reflexivity. }
  assert (Hclick : forall u : State,
            suppressClickUntil u = now + 250 ->
            forall t name, t < now + 250 -> onSquareClick t name u = u).
  { intros u Hu t name Ht. unfold onSquareClick. rewrite Hu.
    apply Z.ltb_lt in Ht. rewrite Ht. reflexivity. }
  destruct Hup as [-> | [-> | ->]];
    unfold onGlobalPointerUp, onGlobalMouseUp, onGlobalTouchEnd;
    rewrite Hd, Hdrop;
    (split; [reflexivity|]); (split; [reflexivity|]);
    apply Hclick; reflexivity.
Qed.

(** X11. Cancelling a drag that had crossed the threshold ends the drag
    and leaves the position alone, but keeps the selection the drag made;
    cancelling again, or with no drag in progress, does nothing. *)
Theorem cancel_keeps_drag_selection ev s d :
  touchDrag s = Some d ->
  moved d = false ->
  crossedThreshold (clientX ev - startX d) (clientY ev - startY d) = true ->
  let s' := cancelActiveDrag (onGlobalPointerMove ev s) in
  touchDrag s' = None /\
  selected s' = Some (drag_from d) /\
  game s' = game s /\
  cancelActiveDrag s' = s'.
Proof.
  intros Hd Hm Hc s'.
  assert (Hs' : s' = setDraggingCursor false
                       (with_touchDrag None
                          (setDraggingCursor true
                             (with_selected (Some (drag_from d)) s)))).
  { subst s'. unfold onGlobalPointerMove. rewrite Hd, Hm, Hc.
    cbn [negb andb]. unfold cancelActiveDrag. fields. reflexivity. }
  rewrite Hs'. repeat split; reflexivity.
Qed.

(** *** Undo, redo and restarts *)

(** X12. With no move to take back [undo] does nothing, and with an empty
    redo stack [redo] does nothing.  A redo the engine rejects still
    consumes its entry and changes nothing else.  A successful undo makes
    redo available and, when the position it returns to is not over,
    clears the game-over record. *)
Theorem undo_redo_edges s :
  (eng_undo (game s) = None -> undo s = s) /\
  (redoStack s = [] -> redo s = s) /\
  (forall move rest,
     redoStack s = move :: rest ->
     eng_move_san (game s) (Move.san move) = None ->
     redo s = with_redoStack rest s) /\
  (forall m g,
     eng_undo (game s) = Some (m, g) ->
     canRedo (undo s) = true /\
     (eng_isGameOver g = false -> gameOver (undo s) = None)).
Proof.
  split; [|split; [|split]].
  - intros H. unfold undo. rewrite H. reflexivity.
  - intros H. unfold redo. rewrite H. reflexivity.
  - intros move rest Hs Hm. unfold redo. rewrite Hs. fields. rewrite Hm.
    reflexivity.
  - intros m g Hu.
    destruct (undo_reverts _ _ _ Hu) as (_ & Hst & _ & _).
    split; [unfold canRedo; rewrite Hst; reflexivity|].
    intros Ho. unfold undo. rewrite Hu.
    assert (F : forall t : State,
               gameOver (if soundOn t then playSound SndMove t else t)
               = gameOver t).
    { intros t. destruct (soundOn t); [|reflexivity].
      rewrite playSound_footprint. reflexivity. }
    rewrite F. fields. unfold updateGameOverBanner. fields. rewrite Ho.
    reflexivity.
Qed.

(** X13. [reset] and a successful [loadFEN] restart the session on the new
    position: redo stack, selection and highlight are cleared, the clock
    is stopped and both sides are back at the base time with White
    active.  A string the engine refuses only raises the alert. *)
Theorem restart_restores_clock s :
  (forall s',
     s' = reset s \/
     (exists fenStr g, eng_load (game s) fenStr = Some g /\
                       s' = loadFEN fenStr s) ->
     redoStack s' = [] /\
     selected s' = None /\
     lastMoveSquares s' = ∅ /\
     running s' = false /\
     timerId s' = false /\
     whiteTimeMs s' = baseMs s /\
     blackTimeMs s' = baseMs s /\
     activeColor s' = White /\
     incrementMs s' = incrementMs s) /\
  (forall fenStr,
     eng_load (game s) fenStr = None ->
     loadFEN fenStr s = with_effects (Alert "Invalid FEN" :: effects s) s).
Proof.
  split.
  - intros s' [-> | (fenStr & g & Hl & ->)].
    + unfold reset. fields. rewrite updateGameOverBanner_footprint. fields.
      repeat split.
    + unfold loadFEN. rewrite Hl. fields.
      rewrite updateGameOverBanner_footprint. fields. repeat split.
  - intros fenStr Hl. unfold loadFEN. rewrite Hl. reflexivity.
Qed.

(** X14. Picking a time preset closes the picker, stops the clock, puts
    both sides at the preset's base time and marks that preset, and no
    other, as active; position and redo stack are kept. *)
Theorem preset_is_active minutes incSeconds v s :
  let '(v', s') := pickPreset minutes incSeconds v s in
  timePickerOpen v' = false /\
  running s' = false /\
  timerId s' = false /\
  whiteTimeMs s' = minutes * 60000 /\
  blackTimeMs s' = minutes * 60000 /\
  incrementMs s' = incSeconds * 1000 /\
  game s' = game s /\
  redoStack s' = redoStack s /\
  forall m i, isPresetActive m i s' = true <-> m = minutes /\ i = incSeconds.
Proof.
  cbn. repeat split; try lia.
  - unfold isPresetActive in H. cbn in H.
    apply andb_true_iff in H. destruct H as [H _]. apply Z.eqb_eq in H. lia.
  - unfold isPresetActive in H. cbn in H.
    apply andb_true_iff in H. destruct H as [_ H]. apply Z.eqb_eq in H. lia.
  - intros [-> ->]. unfold isPresetActive. cbn.
    apply andb_true_iff. split; apply Z.eqb_eq; lia.
Qed.

(** *** Highlights *)

Lemma find_to_spec nm (candidates : list Move.t) :
  find_to nm candidates <> None
  <-> exists m, In m candidates /\ Move.to m = nm.
Proof.
  unfold find_to. split.
  - destruct (List.find _ candidates) as [m|] eqn:Hf; [|congruence].
    intros _. apply List.find_some in Hf. destruct Hf as [Hin Heq].
    exists m. split; [exact Hin|]. apply String.eqb_eq. exact Heq.
  - intros (m & Hin & Heq) Hnone.
    pose proof (List.find_none _ _ Hnone m Hin) as Hm. cbn in Hm.
    rewrite Heq, String.eqb_refl in Hm. discriminate.
Qed.

Lemma elem_of_targets nm (moves : list Move.t) :
  nm ∈ (list_to_set (List.map Move.to moves) : gset Square)
  <-> exists m, In m moves /\ Move.to m = nm.
Proof.
  rewrite elem_of_list_to_set, list_elem_of_In, List.in_map_iff.
  split; intros (m & H1 & H2); exists m; tauto.
Qed.

(** X15. The highlighted squares are the destinations the engine offers
    for the selected square, the capture highlights are among them, and an
    accepted click on a highlighted square always goes to the engine or to
    the promotion prompt, never to the illegal branch. *)
Theorem highlights_reach_the_engine s :
  captureTargets s ⊆ legalTargets s /\
  (forall nm,
     isLegalTarget nm s = true
     <-> exists from,
           selected s = Some from /\ from <> "" /\
           find_to nm (eng_moves (game s) from) <> None) /\
  (forall now currentSel nm,
     (now <? suppressClickUntil s) = false ->
     Promotion.ask (promotion s) = false ->
     eng_isGameOver (game s) = false ->
     gameOver s = None ->
     running s = true ->
     selected s = Some currentSel ->
     currentSel <> nm ->
     isLegalTarget nm s = true ->
     exists target,
       In target (eng_moves (game s) currentSel) /\
       Move.to target = nm /\
       onSquareClick now nm s
       = if includes (Move.flags target) "p" then askPromotion target s
         else applyTarget target s).
Proof.
  assert (Hlegal : forall nm,
    nm ∈ legalTargets s
    <-> exists from,
          selected s = Some from /\ from <> "" /\
          find_to nm (eng_moves (game s) from) <> None).
  { intros nm. unfold legalTargets.
    destruct (selected s) as [from|].
    - destruct (String.eqb from "") eqn:He.
      + apply String.eqb_eq in He. split; [set_solver|].
        intros (f & Hf & Hne & _). congruence.
      + apply String.eqb_neq in He. rewrite elem_of_targets, <- find_to_spec.
        split.
        * intros H. exists from. auto.
        * intros (f & Hf & _ & H). congruence.
    - split; [set_solver|]. intros (f & Hf & _). discriminate. }
  split; [|split].
  - unfold captureTargets, legalTargets.
    destruct (selected s) as [from|]; [|set_solver].
    destruct (String.eqb from ""); [set_solver|].
    intros nm. rewrite !elem_of_targets.
    intros (m & Hin & Hto). apply List.filter_In in Hin.
    exists m. tauto.
  - intros nm. unfold isLegalTarget. rewrite bool_decide_eq_true. apply Hlegal.
  - intros now cur nm Hn Ha Ho Hg Hr Hs Hne Hl.
    unfold isLegalTarget in Hl. rewrite bool_decide_eq_true in Hl.
    apply Hlegal in Hl. destruct Hl as (from & Hf & Hfe & Hfind).
    assert (from = cur) by congruence. subst from.
    destruct (find_to nm (eng_moves (game s) cur)) as [target|] eqn:Ht;
      [|congruence].
    exists target.
    pose proof Ht as Ht'. unfold find_to in Ht'.
    apply List.find_some in Ht'. destruct Ht' as [Hin Heq].
    split; [exact Hin|]. split; [apply String.eqb_eq; exact Heq|].
    unfold onSquareClick, clickSelected.
    rewrite Hn, Ha, Ho, Hg, Hr, Hs. cbn [isSome orb negb].
    rewrite (string_eqb_false _ _ Hfe), (string_eqb_false _ _ Hne), Ht.
    reflexivity.
Qed.

(** *** The rendered board *)

Lemma boardSquares_length raw v : List.length (boardSquares raw v) = 64%nat.
Proof. unfold boardSquares. rewrite List.length_map. reflexivity. Qed.

(** X16. The board is rendered as 64 squares with 64 different square
    names; flipping the board renders the same squares in the opposite
    order. *)
Theorem flip_reverses_the_board raw v :
  List.length (boardSquares raw v) = 64%nat /\
  Forall (fun sq => name sq <> None) (boardSquares raw v) /\
  NoDup (List.map name (boardSquares raw v)) /\
  boardSquares raw (flip v) = List.rev (boardSquares raw v).
Proof.
  split; [apply boardSquares_length|].
  destruct v as [[|] wn bn ew eb tp].
  - split; [|split].
    + vm_compute. repeat constructor; discriminate.
    + apply (bool_decide_unpack _). vm_compute. exact I.
    + vm_compute. reflexivity.
  - split; [|split].
    + vm_compute. repeat constructor; discriminate.
    + apply (bool_decide_unpack _). vm_compute. exact I.
    + vm_compute. reflexivity.
Qed.

(** X17. Whichever way the board is turned, the file letters are shown on
    the bottom row of the rendered board and the rank numbers on its left
    column, and nowhere else. *)
Theorem labels_on_the_edges raw v :
  List.map
    (fun sq =>
       match name sq with
       | Some n => (showFileLabel v n, showRankLabel v n)
       | None => (false, false)
       end)
    (boardSquares raw v)
  = List.map (fun '(r, c) => (Nat.eqb r 7, Nat.eqb c 0)) cells.
Proof. destruct v as [[|] wn bn ew eb tp]; vm_compute; reflexivity. Qed.

(** X18. The squares are coloured as a chessboard: in both orientations
    the rendered square in row [r] and column [c] is light exactly when
    [r + c] is even, so neighbours always differ and the bottom-right
    corner is light. *)
Theorem squares_are_chequered raw v :
  List.map getSquareColorClass (boardSquares raw v)
  = List.map
      (fun '(r, c) =>
         if Nat.even (r + c) then "square-light" else "square-dark")
      cells.
Proof. destruct v as [[|] wn bn ew eb tp]; vm_compute; reflexivity. Qed.

(** *** The clock read-out *)

(** X19. The read-out of a clock below zero is always "-0.0s"; under a
    minute it shows tenths of a second and above whole seconds, rounding
    down: the time and its multiple of 100 ms (of 1000 ms from a minute
    on) read the same. *)
Theorem formatTime_granularity ms :
  (ms < 0 -> formatTime ms = "-0.0s") /\
  (0 <= ms -> formatTime ms = formatTime (ms / 100 * 100)) /\
  (60000 <= ms -> formatTime ms = formatTime (ms / 1000 * 1000)).
Proof.
  split; [|split].
  - intros H. unfold formatTime.
    replace (ms <? 0) with true by (symmetry; apply Z.ltb_lt; lia).
    replace (Z.max 0 ms) with 0 by lia. reflexivity.
  - intros H. unfold formatTime.
    replace (ms <? 0) with false by (symmetry; apply Z.ltb_ge; lia).
    replace (ms / 100 * 100 <? 0) with false
      by (symmetry; apply Z.ltb_ge; Z.div_mod_to_equations; lia).
    replace (Z.max 0 (ms / 100 * 100)) with (ms / 100 * 100)
      by (Z.div_mod_to_equations; lia).
    replace (Z.max 0 ms) with ms by lia.
    replace (ms / 100 * 100 / 1000) with (ms / 1000)
      by (Z.div_mod_to_equations; lia).
    replace ((ms / 100 * 100) mod 1000 / 100) with (ms mod 1000 / 100)
      by (Z.div_mod_to_equations; lia).
    reflexivity.
  - intros H. unfold formatTime.
    replace (ms <? 0) with false by (symmetry; apply Z.ltb_ge; lia).
    replace (ms / 1000 * 1000 <? 0) with false
      by (symmetry; apply Z.ltb_ge; Z.div_mod_to_equations; lia).
    replace (Z.max 0 (ms / 1000 * 1000)) with (ms / 1000 * 1000)
      by (Z.div_mod_to_equations; lia).
    replace (Z.max 0 ms) with ms by lia.
    replace (ms / 1000 * 1000 / 1000) with (ms / 1000)
      by (Z.div_mod_to_equations; lia).
    assert (Hmin : 0 < ms / 1000 / 60) by (Z.div_mod_to_equations; lia).
    apply Z.ltb_lt in Hmin. rewrite Hmin.
    destruct (10 <=? ms / 1000 / 60); reflexivity.
Qed.

(** *** Player names *)

(** X20. Once both names went through [endEdit], neither is empty and no
    name is being edited, whatever was typed; so the game-over banner
    always has a winner's name or "Draw" to show. *)
Theorem names_never_blank (trim : string -> string) v s go :
  gameOver s = Some go ->
  let v' := endEdit trim White (endEdit trim Black v) in
  whiteName v' <> "" /\
  blackName v' <> "" /\
  editingWhite v' = false /\
  editingBlack v' = false /\
  winnerDisplay v' s <> "".
Proof.
  intros Hg v'. subst v'. cbn.
  assert (N : forall t fallback,
            fallback <> "" ->
            (if String.eqb (trim t) "" then fallback else trim t) <> "").
  { intros t fallback Hf. destruct (String.eqb (trim t) "") eqn:He;
      [exact Hf | apply String.eqb_neq; exact He]. }
  repeat split; try (apply N; discriminate).
  unfold winnerDisplay. rewrite Hg. cbn.
  destruct (winner go) as [[|]|]; try (apply N; discriminate). discriminate.
Qed.

(** *** The king's square *)

Lemma in_cells (row col : nat) :
  In (row, col) cells <-> (row < 8 /\ col < 8)%nat.
Proof.
  unfold cells. rewrite List.in_flat_map. split.
  - intros (r' & Hr & Hin). apply List.in_map_iff in Hin.
    destruct Hin as (c' & Hc & Hin'). inversion Hc; subst.
    apply List.in_seq in Hr. apply List.in_seq in Hin'. lia.
  - intros [Hr Hc]. exists row. split; [apply List.in_seq; lia|].
    apply List.in_map_iff. exists col. split; [reflexivity|].
    apply List.in_seq. lia.
Qed.

Lemma squareName_on_board (row col : nat) :
  (row < 8)%nat -> (col < 8)%nat ->
  squareName (Z.of_nat row) (Z.of_nat col) <> None.
Proof.
  intros Hr Hc. unfold squareName.
  do 8 (destruct col as [|col]; [discriminate|]). lia.
Qed.

(** X21. [kingSquare] is the name of a square of the board that holds a
    king of the side to move, and it is null only when the board holds no
    such king. *)
Theorem kingSquare_finds_the_king raw s :
  (forall n,
     kingSquare raw s = Some n ->
     exists row col : nat,
       (row < 8 /\ col < 8)%nat /\
       squareName (Z.of_nat row) (Z.of_nat col) = Some n /\
       isKingOf (eng_turn (game s)) (raw row col) = true) /\
  (kingSquare raw s = None <->
   forall row col : nat,
     (row < 8)%nat -> (col < 8)%nat ->
     isKingOf (eng_turn (game s)) (raw row col) = false).
Proof.
  unfold kingSquare.
  destruct (List.find _ cells) as [[row col]|] eqn:Hf.
  - apply List.find_some in Hf. destruct Hf as [Hin Hk].
    apply in_cells in Hin. split.
    + intros n Hn. exists row, col. auto.
    + split.
      * intros Hnone. exfalso.
        destruct Hin as [Hr Hc].
        exact (squareName_on_board row col Hr Hc Hnone).
      * intros Hall. destruct Hin as [Hr Hc].
        rewrite (Hall row col Hr Hc) in Hk. discriminate.
  - split; [discriminate|]. split; [|reflexivity].
    intros _ row col Hr Hc.
    apply (List.find_none _ _ Hf (row, col)). apply in_cells. auto.
Qed.

(** *** What leaves the position alone *)

Lemma pressGuard_frame {A} (f : State -> A) refuse accept from s :
  (forall flash t, f (refuse flash t) = f t) ->
  f (accept s) = f s ->
  f (pressGuard refuse accept from s) = f s.
Proof.
  intros Hr Ha. unfold pressGuard.
  repeat match goal with
         | |- context [if ?b then _ else _] => destruct b
         | |- context [match ?x with _ => _ end] => destruct x
         end; auto.
Qed.

Lemma refuse_frame flash s :
  (game (refusePress flash s), redoStack (refusePress flash s))
  = (game s, redoStack s) /\
  (game (refuseTouch flash s), redoStack (refuseTouch flash s))
  = (game s, redoStack s).
Proof.
  unfold refusePress, refuseTouch. split.
  - rewrite playSound_footprint. destruct flash; reflexivity.
  - destruct flash; fields;
      (destruct (soundOn s); [rewrite playSound_footprint|]; reflexivity).
Qed.

(** X22. Presses, pointer moves, drag cancellation, the clock controls and
    ticks, the timeouts, the sound toggle and the game-over dismissal never
    change the position or the redo stack; and with the clock stopped no
    click and no release does either.  Only [promote], [undo], [redo],
    [reset] and [loadFEN] can then change them. *)
Theorem position_is_left_alone a s :
  (callsEngine a = false \/
   (running s = false /\
    match a with
    | AClick _ _ | APointerUp _ | AMouseUp _ | ATouchEnd _ => True
    | _ => False
    end)) ->
  game (step a s) = game s /\ redoStack (step a s) = redoStack s.
Proof.
  assert (Hpair : forall t : State,
            (game t, redoStack t) = (game s, redoStack s) ->
            game t = game s /\ redoStack t = redoStack s)
    by (intros t H; inversion H; split; reflexivity).
  assert (Htry : running s = false -> forall from to, tryMove from to s = s).
  { intros Hr from to. unfold tryMove. rewrite Hr. cbn [negb].
    rewrite orb_true_r. reflexivity. }
  assert (Hdrop : running s = false ->
                  forall now d,
                    (game (dropIfMoved now d s), redoStack (dropIfMoved now d s))
                    = (game s, redoStack s)).
  { intros Hr now d. unfold dropIfMoved.
    destruct (moved d); [|reflexivity].
    destruct (currentOverSquare d) as [over|]; [|reflexivity].
    destruct (_ && _); [|reflexivity]. rewrite Htry by exact Hr. reflexivity. }
  intros [Hm | [Hr Ha]]; apply Hpair.
  - destruct a; try discriminate Hm; cbn [step].
    + unfold ngOnInit. rewrite updateGameOverBanner_footprint. reflexivity.
    + reflexivity.
    + unfold onPiecePointerDown.
      destruct (negb (button ev =? 0)); [reflexivity|].
      destruct (pointerIsMouse ev); [reflexivity|].
      apply (pressGuard_frame (fun t => (game t, redoStack t)));
        [intros; apply refuse_frame | reflexivity].
    + unfold onMouseDownPiece.
      destruct (negb (button ev =? 0)); [reflexivity|].
      apply (pressGuard_frame (fun t => (game t, redoStack t)));
        [intros; apply refuse_frame | reflexivity].
    + unfold onPieceTouchStart. destruct touches as [|t [|]]; try reflexivity.
      apply (pressGuard_frame (fun t => (game t, redoStack t)));
        [intros; apply refuse_frame | reflexivity].
    + unfold onGlobalPointerMove.
      destruct (touchDrag s) as [d|]; [|reflexivity].
      destruct (negb (moved d) && _); reflexivity.
    + unfold onGlobalMouseMove, onGlobalPointerMove.
      destruct (touchDrag s) as [d|]; [|reflexivity].
      destruct (negb (moved d) && _); reflexivity.
    + unfold onGlobalTouchMove.
      destruct (touchDrag s) as [d|]; [|reflexivity].
      destruct touches as [|t [|]]; reflexivity.
    + unfold cancelActiveDrag. destruct (touchDrag s); reflexivity.
    + unfold startClocks. destruct (running s); reflexivity.
    + reflexivity.
    + reflexivity.
    + reflexivity.
    + reflexivity.
    + reflexivity.
    + unfold intervalFires, tick. destruct (timerId s); [|reflexivity].
      destruct (Promotion.ask (promotion s)); [reflexivity|]. cbv zeta.
      destruct (flagFallen _).
      * rewrite onFlag_footprint. destruct (eng_turn (game s)); reflexivity.
      * destruct (eng_turn (game s)); reflexivity.
    + unfold gameOverTimeoutFires. destruct (gameOverTimeoutId s); reflexivity.
    + reflexivity.
  - destruct a; try contradiction; cbn [step].
    + unfold onSquareClick. rewrite Hr. cbn [negb].
      destruct (now <? suppressClickUntil s); [reflexivity|].
      destruct (Promotion.ask (promotion s)); [reflexivity|].
      destruct (_ || _); reflexivity.
    + unfold onGlobalPointerUp. destruct (touchDrag s) as [d|]; [|reflexivity].
      fields. apply Hdrop, Hr.
    + unfold onGlobalMouseUp. destruct (touchDrag s) as [d|]; [|reflexivity].
      fields. apply Hdrop, Hr.
    + unfold onGlobalTouchEnd. destruct (touchDrag s) as [d|]; [|reflexivity].
      fields. apply Hdrop, Hr.
Qed.

(** X23. A click never selects an empty square or a piece of the side
    that is not to move: whenever a click changes the selection, the
    selection is either cleared or set to the clicked square, which then
    holds a piece of the side to move. *)
Theorem click_selects_own_pieces now nm s :
  let s' := onSquareClick now nm s in
  selected s' = selected s \/
  selected s' = None \/
  (selected s' = Some nm /\
   exists p, eng_get (game s) nm = Some p /\
             Piece.color p = eng_turn (game s)).
Proof.
  assert (Hps : forall k t, selected (playSound k t) = selected t)
    by (intros; rewrite playSound_footprint; reflexivity).
  assert (Hcol : forall a b, Color_eqb a b = true -> a = b)
    by (intros [|] [|]; cbn; congruence).
  assert (Hidle : let t := clickIdle nm s in
                  selected t = selected s \/ selected t = None \/
                  (selected t = Some nm /\
                   exists p, eng_get (game s) nm = Some p /\
                             Piece.color p = eng_turn (game s))).
  { unfold clickIdle.
    destruct (eng_get (game s) nm) as [p|] eqn:Hp.
    - destruct (Color_eqb (Piece.color p) (eng_turn (game s))) eqn:Hc;
        cbn [negb].
      + destruct (isCheck s && is_nil (eng_moves (game s) nm)).
        * left. rewrite Hps. reflexivity.
        * right. right. split; [reflexivity|]. exists p. auto.
      + left. rewrite Hps. destruct (isCheck s); reflexivity.
    - left. destruct (isCheck s); reflexivity. }
  cbv zeta. unfold onSquareClick.
  destruct (now <? suppressClickUntil s); [auto|].
  destruct (Promotion.ask (promotion s)); [auto|].
  destruct (_ || _); [auto|].
  destruct (negb (running s)); [auto|].
  destruct (selected s) as [cur|] eqn:Hs; [|exact Hidle].
  destruct (String.eqb cur ""); [exact Hidle|].
  unfold clickSelected.
  destruct (String.eqb cur nm); [right; left; reflexivity|].
  destruct (find_to nm (eng_moves (game s) cur)) as [target|].
  - destruct (includes (Move.flags target) "p").
    + left. unfold askPromotion. fields. exact Hs.
    + unfold applyTarget.
      destruct (eng_move _ _ _ _) as [[res g]|]; [|left; exact Hs].
      right. left. apply afterMoveUpdate_selected.
  - destruct (eng_get (game s) nm) as [p|] eqn:Hp.
    + destruct (Color_eqb (Piece.color p) (eng_turn (game s))) eqn:Hc.
      * destruct (isCheck s && is_nil (eng_moves (game s) nm)).
        -- left. rewrite Hps. fields. exact Hs.
        -- right. right. split; [reflexivity|]. exists p. auto.
      * right. left. reflexivity.
    + right. left. reflexivity.
Qed.

End Properties.

(** ** The properties on the scripted engine *)

Lemma commit_protocol_witness :
  let before := onSquareClick 0 "f2" Script.blitz in
  let after := run (OpClick 0 "f3") before in
  eng_history (game after) = ["f3"] /\
  redoStack after = [] /\
  selected after = None /\
  lastMoveSquares after = {[ "f2"; "f3" ]} /\
  whiteTimeMs after = 182000 /\
  blackTimeMs after = 180000.
Proof.
  intros before after.
  assert (H : Commits (OpClick 0 "f3") before Script.f3
                (with_game (Script.mk Script.Standard [Script.f3]) before)).
  { apply commit_click with (currentSel := "f2") (target := Script.f3);
      try reflexivity; discriminate. }
  destruct (commit_protocol _ _ _ _ H) as (_ & Hg & Hr & Hs & Hl & Ht).
  destruct Ht as [Hw Hb]; [reflexivity|].
  subst after.
  split; [rewrite Hg; reflexivity|].
  split; [exact Hr|].
  split; [exact Hs|].
  split; [exact Hl|].
  split; [exact Hw | exact Hb].
Defined.


(** C2, counterexample.  After 1. f3 Black selects e7 and taps it again,
    which clears the highlight; undo and redo then bring the position back
    but leave the highlight on f2-f3, not empty as it was before the
    undo. *)
Lemma roundtrip_after_deselect :
  let before := onSquareClick 0 "e7" (onSquareClick 0 "e7" Script.after_f3) in
  let back := redo (undo before) in
  eng_history (game before) = ["f3"] /\
  lastMoveSquares before = ∅ /\
  game back = game before /\
  lastMoveSquares back = {[ "f2"; "f3" ]} /\
  lastMoveSquares back <> lastMoveSquares before.
Proof.
  intros before back.
  assert (H1 : lastMoveSquares before = ∅) by (vm_compute; reflexivity).
  assert (H2 : lastMoveSquares back = {[ "f2"; "f3" ]})
    by (vm_compute; reflexivity).
  split; [vm_compute; reflexivity|].
  split; [exact H1|].
  split; [vm_compute; reflexivity|].
  split; [exact H2|].
  rewrite H1, H2. vm_compute. discriminate.
Qed.

Lemma undo_redo_restores_witness :
  let back := redo (undo Script.after_f3) in
  game back = game Script.after_f3 /\
  lastMoveSquares back = lastMoveSquares Script.after_f3.
Proof.
  intros back.
  assert (Hu : eng_undo (game Script.after_f3)
               = Some (Script.f3, Script.mk Script.Standard []))
    by (vm_compute; reflexivity).
  assert (Hr : eng_move_san (Script.mk Script.Standard [])
                 (Move.san Script.f3)
               = Some (Script.f3, game Script.after_f3))
    by (vm_compute; reflexivity).
  destruct (undo_redo_restores Script.after_f3 Script.f3
              (Script.mk Script.Standard []) Hu Hr) as (Hg & _ & Hl & _).
  split; [exact Hg|]. apply Hl. vm_compute. reflexivity.
Defined.

Lemma tick_effect_witness :
  (intervalFires Script.promoting = Script.promoting) /\
  (whiteTimeMs (intervalFires Script.started) = 600000 - 100 /\
   blackTimeMs (intervalFires Script.started) = 600000).
Proof.
  split.
  - apply (tick_effect Script.promoting); reflexivity.
  - destruct (tick_effect Script.started eq_refl) as [_ H].
    destruct (H eq_refl) as (Hw & Hb & _). split; [exact Hw | exact Hb].
Defined.

Lemma winner_attribution_witness :
  let pre :=
    with_game
      (Script.mk Script.Standard [Script.Qh4; Script.g4; Script.e5; Script.f3])
      (onSquareClick 0 "d8" Script.after_g4) in
  let flagged := with_whiteTimeMs (-50) Script.started in
  gameOver (gameOverTimeoutFires (afterMoveUpdate Script.Qh4 pre))
  = Some (mkGameOver checkmate "by checkmate" (Some Black)) /\
  gameOver (gameOverTimeoutFires (onFlag flagged))
  = Some (mkGameOver time "on time" (Some Black)) /\
  gameOver (updateGameOverBanner Script.stalematePage)
  = Some (mkGameOver stalemate "by stalemate" None).
Proof.
  intros pre flagged.
  destruct (@winner_attribution Script.t _) as (Hmate & Hflag & Hdraw).
  split; [|split].
  - exact (Hmate Script.Qh4 pre eq_refl eq_refl).
  - apply (Hflag flagged White); [discriminate | reflexivity].
  - apply (Hdraw Script.stalematePage); reflexivity.
Defined.

(** C5, counterexample.  1. f3 is taken back and a time preset is picked,
    which stops the clock; [redo] then replays the move although the clock
    is not running. *)
Lemma redo_ignores_stopped_clock :
  let stopped := setTimeControl 5 0 (undo Script.after_f3) in
  running stopped = false /\
  eng_history (game stopped) = [] /\
  eng_history (game (run OpRedo stopped)) = ["f3"] /\
  run OpRedo stopped <> stopped.
Proof.
  intros stopped.
  assert (H : eng_history (game (run OpRedo stopped)) = ["f3"])
    by (vm_compute; reflexivity).
  split; [vm_compute; reflexivity|].
  split; [vm_compute; reflexivity|].
  split; [exact H|].
  intros Heq. rewrite Heq in H. vm_compute in H. discriminate H.
Qed.

Lemma click_and_drop_guarded_witness :
  let stopped := pauseClocks Script.after_f3 in
  onSquareClick 0 "e7" stopped = stopped /\
  tryMove "e7" "e5" stopped = stopped /\
  tryMove "e7" "e4" Script.after_f3
  = clearSelection (playSound SndIllegal Script.after_f3).
Proof.
  intros stopped.
  destruct (click_and_drop_guarded stopped) as [Hoff _].
  destruct (Hoff (or_intror (or_intror eq_refl))) as [Hclick Hdrop].
  destruct (click_and_drop_guarded Script.after_f3) as [_ Hon].
  assert (Ha : Promotion.ask (promotion Script.after_f3) = false)
    by (vm_compute; reflexivity).
  assert (Ho : eng_isGameOver (game Script.after_f3) = false)
    by (vm_compute; reflexivity).
  assert (Hg : gameOver Script.after_f3 = None) by (vm_compute; reflexivity).
  assert (Hr : running Script.after_f3 = true) by (vm_compute; reflexivity).
  destruct (Hon Ha Ho Hg Hr) as [Hillegal _].
  split; [apply Hclick|].
  split; [apply Hdrop|].
  apply Hillegal. vm_compute. reflexivity.
Defined.

(** C6, at the failing input.  1. f3 e5 2. g4 Qh4# is played and [reset]
    is called before the timeout elapses: the board is back at the start,
    no record is shown, and the timeout then publishes the checkmate
    record of the game that was reset. *)
Lemma stale_record_after_reset :
  let fresh := reset Script.after_mate in
  eng_history (game fresh) = [] /\
  gameOver fresh = None /\
  gameOver (gameOverTimeoutFires fresh)
  = Some (mkGameOver checkmate "by checkmate" (Some Black)).
Proof. vm_compute. repeat split; reflexivity. Qed.

(** C7, counterexample.  A touch press on the f2 pawn, at the start of the
    game, selects f2 before any move event. *)
Lemma touch_press_selects :
  let pressed :=
    onPieceTouchStart "f2" [mkTouch 100 700 (Some "f2")] Script.started in
  selected Script.started = None /\
  selected pressed = Some "f2" /\
  option_map moved (touchDrag pressed) = Some false.
Proof. vm_compute. repeat split; reflexivity. Qed.

Lemma press_and_threshold_witness :
  let press := mkPointerEv 0 false 100 700 (Some "f2") in
  let pressed := onPiecePointerDown "f2" press Script.started in
  selected pressed = None /\
  selected (onGlobalPointerMove (mkPointerEv 0 false 103 702 (Some "f2")) pressed)
  = None /\
  selected (onGlobalPointerMove (mkPointerEv 0 false 103 704 (Some "f3")) pressed)
  = Some "f2" /\
  selected (onGlobalPointerUp 10 pressed) = None /\
  selected (onPieceTouchStart "f2" [mkTouch 100 700 (Some "f2")] Script.started)
  = Some "f2".
Proof.
  intros press pressed.
  destruct (@press_and_threshold Script.t _)
    as (Hpress & Hmove & Hup & Htouch & _).
  split; [exact (proj1 (Hpress "f2" press Script.started))|].
  split; [exact (proj1 (Hmove (mkPointerEv 0 false 103 702 (Some "f2")) pressed))|].
  split; [exact (proj1 (Hmove (mkPointerEv 0 false 103 704 (Some "f3")) pressed))|].
  split.
  - exact (proj1 (Hup 10 (mkDrag "f2" 100 700 false None) pressed
                    eq_refl eq_refl)).
  - apply (Htouch "f2" (mkTouch 100 700 (Some "f2")) Script.started
             (Piece.mk Pawn White)); reflexivity.
Defined.

Lemma idle_tap_selects_witness :
  let flashed := onSquareClick 0 "h1" Script.inCheck in
  (selected flashed = None /\ In CheckFlash (effects flashed)) /\
  onSquareClick 0 "e1" Script.inCheck
  = with_selected (Some "e1") Script.inCheck.
Proof.
  intros flashed. split.
  - pose proof (idle_tap_selects 0 "h1" Script.inCheck (Piece.mk Rook White)
                  eq_refl eq_refl eq_refl eq_refl eq_refl eq_refl eq_refl
                  eq_refl) as H.
    cbv zeta in H.
    assert (C : isCheck Script.inCheck
                && is_nil (eng_moves (game Script.inCheck) "h1") = true)
      by (vm_compute; reflexivity).
    rewrite C in H. destruct H as (_ & Hs & _ & Hf & _).
    split; [exact Hs | exact Hf].
  - pose proof (idle_tap_selects 0 "e1" Script.inCheck (Piece.mk King White)
                  eq_refl eq_refl eq_refl eq_refl eq_refl eq_refl eq_refl
                  eq_refl) as H.
    cbv zeta in H.
    assert (C : isCheck Script.inCheck
                && is_nil (eng_moves (game Script.inCheck) "e1") = false)
      by (vm_compute; reflexivity).
    rewrite C in H. exact H.
Defined.

(** C9, counterexample.  After 1. f3 Black selects e7 and taps it again:
    the highlight of f2-f3 is gone. *)
Lemma deselect_clears_last_move :
  let picked := onSquareClick 0 "e7" Script.after_f3 in
  selected picked = Some "e7" /\
  lastMoveSquares picked = {[ "f2"; "f3" ]} /\
  lastMoveSquares (onSquareClick 0 "e7" picked) = ∅ /\
  lastMoveSquares (onSquareClick 0 "e7" picked) <> lastMoveSquares picked.
Proof.
  intros picked.
  assert (H1 : lastMoveSquares picked = {[ "f2"; "f3" ]})
    by (vm_compute; reflexivity).
  assert (H2 : lastMoveSquares (onSquareClick 0 "e7" picked) = ∅)
    by (vm_compute; reflexivity).
  split; [vm_compute; reflexivity|].
  split; [exact H1|].
  split; [exact H2|].
  rewrite H1, H2. vm_compute. discriminate.
Qed.

Lemma deselect_by_tap_witness :
  let picked := onSquareClick 0 "e7" Script.after_f3 in
  onSquareClick 0 "e7" picked
  = with_stateTick (stateTick picked + 1)
      (with_lastMoveSquares ∅ (with_selected None picked)) /\
  lastMoveSquares (loadFEN Script.studyFEN picked) = ∅.
Proof.
  intros picked.
  destruct (deselect_by_tap picked) as (Htap & _ & _ & Hload).
  split.
  - apply (Htap 0 "e7"); try (vm_compute; reflexivity); discriminate.
  - apply (Hload Script.studyFEN (Script.mk Script.Study [])).
    vm_compute. reflexivity.
Defined.

(** C10, at the failing input.  In the study position the pawn is dropped
    on a8 and [reset] is called while the choice is pending; the record
    survives the reset.  The engine then rejects a7-a8=Q on the starting
    position, and [promote] leaves the record pending: the session is as
    before the call, and board clicks stay ignored. *)
Lemma rejected_choice_stays_pending :
  let stale := reset Script.promoting in
  Promotion.ask (promotion stale) = true /\
  eng_move (game stale) "a7" "a8" (Some Pq) = None /\
  promote Pq stale = stale /\
  promotion (promote Pq stale)
  = Promotion.mk true (Some White) (Some "a7") (Some "a8") /\
  onSquareClick 0 "f2" (startClocks (promote Pq stale))
  = startClocks (promote Pq stale).
Proof. vm_compute. repeat split; reflexivity. Qed.

Lemma clock_handle_invariant_witness :
  let run :=
    [AInit; AStartClocks; AClick 0 "f2"; AClick 0 "f3"; AIntervalFires;
     ASetTimeControl 3 2; AStartClocks] in
  let fresh := newPage (Script.mk Script.Standard []) in
  running (steps run fresh) = timerId (steps run fresh).
Proof.
  intros run fresh. apply (clock_handle_invariant run fresh). reflexivity.
Defined.

Lemma start_pause_laws_witness :
  startClocks Script.started = Script.started /\
  pauseClocks (startClocks Script.started) = pauseClocks Script.started.
Proof.
  destruct (start_pause_laws Script.started) as (_ & _ & Hps & Hrun & _).
  split; [apply Hrun; reflexivity | exact Hps].
Defined.

Lemma flag_fall_stops_the_clock_witness :
  let low := with_whiteTimeMs 50 Script.started in
  running (intervalFires low) = false /\
  intervalFires (intervalFires low) = intervalFires low /\
  gameOver (gameOverTimeoutFires (intervalFires low))
  = Some (mkGameOver time "on time" (Some Black)).
Proof.
  intros low.
  destruct (flag_fall_stops_the_clock low eq_refl eq_refl)
    as (Hr & _ & Hi & _ & Hw).
  - vm_compute. discriminate.
  - split; [exact Hr|]. split; [exact Hi|]. apply Hw. reflexivity.
Defined.

Lemma checkmate_commit_witness :
  let pre :=
    with_game
      (Script.mk Script.Standard [Script.Qh4; Script.g4; Script.e5; Script.f3])
      (onSquareClick 0 "d8" Script.after_g4) in
  running (afterMoveUpdate Script.Qh4 pre) = false /\
  gameOver (afterMoveUpdate Script.Qh4 pre) = gameOver pre.
Proof.
  intros pre.
  assert (Ho : eng_isGameOver (game pre) = true) by (vm_compute; reflexivity).
  assert (Hm : eng_isCheckmate (game pre) = true) by (vm_compute; reflexivity).
  destruct (checkmate_commit Script.Qh4 pre Ho Hm) as (Hr & _ & Hg & _).
  split; [exact Hr | exact Hg].
Defined.

Lemma one_cue_per_commit_witness :
  let pre :=
    with_game (Script.mk Script.Standard [Script.f3])
      (onSquareClick 0 "f2" Script.started) in
  exists kind,
    effects (afterMoveUpdate Script.f3 pre) = Audio kind :: effects pre /\
    kind = SndMove.
Proof.
  intros pre.
  assert (Ho : eng_isGameOver (game pre) = false) by (vm_compute; reflexivity).
  assert (Hm : eng_isCheckmate (game pre) = false)
    by (vm_compute; reflexivity).
  destruct (one_cue_per_commit Script.f3 pre Ho Hm) as [_ Hon].
  destruct Hon as (kind & He & _ & _ & Hk); [vm_compute; reflexivity|].
  exists kind. split; [exact He|]. apply Hk; vm_compute; reflexivity.
Defined.

Lemma muted_session_is_silent_witness :
  let muted := toggleSound Script.started in
  let run := [AClick 0 "e7"; AClick 0 "f2"; AClick 0 "f3"] in
  soundOn (steps run muted) = false /\
  exists new,
    effects (steps run muted) = (new ++ effects muted)%list /\
    Forall (fun e => isAudio e = false) new.
Proof.
  intros muted run.
  apply (muted_session_is_silent run muted); [reflexivity|].
  repeat constructor; discriminate.
Defined.

Lemma promotion_gate_witness :
  tryMove "a7" "a8" Script.study = Script.promoting /\
  onSquareClick 0 "a8" Script.promoting = Script.promoting /\
  intervalFires Script.promoting = Script.promoting.
Proof.
  destruct (promotion_gate Script.study) as [Hask _].
  destruct (promotion_gate Script.promoting) as [_ Hpend].
  destruct Hpend as (Hclick & _ & _ & _ & Htick); [reflexivity|].
  split; [|split; [apply Hclick | exact Htick]].
  reflexivity.
Defined.

Lemma release_without_drop_witness :
  onGlobalPointerUp 10 Script.started = Script.started /\
  onGlobalMouseUp 10 Script.pressed = with_touchDrag None Script.pressed.
Proof.
  destruct (release_without_drop 10 Script.started) as [Hnone _].
  destruct (release_without_drop 10 Script.pressed) as [_ Hdrag].
  split.
  - apply Hnone. reflexivity.
  - apply (Hdrag (mkDrag "f2" 100 700 false None)); [reflexivity|].
    left. reflexivity.
Defined.

Lemma drop_suppresses_click_witness :
  suppressClickUntil (onGlobalPointerUp 1000 Script.dragged) = 1250 /\
  onSquareClick 1100 "e7" (onGlobalPointerUp 1000 Script.dragged)
  = onGlobalPointerUp 1000 Script.dragged.
Proof.
  destruct (drop_suppresses_click 1000 Script.dragged
              (mkDrag "f2" 100 700 true (Some "f3")) "f3"
              eq_refl eq_refl eq_refl)
    with (up := @onGlobalPointerUp Script.t _) as (_ & Hs & Hc);
    try discriminate.
  - left. reflexivity.
  - split; [exact Hs | apply Hc; reflexivity].
Defined.

Lemma cancel_keeps_drag_selection_witness :
  let ev := mkPointerEv 0 false 100 640 (Some "f3") in
  let cancelled := cancelActiveDrag (onGlobalPointerMove ev Script.pressed) in
  touchDrag cancelled = None /\
  selected cancelled = Some "f2" /\
  cancelActiveDrag cancelled = cancelled.
Proof.
  intros ev cancelled.
  destruct (cancel_keeps_drag_selection ev Script.pressed
              (mkDrag "f2" 100 700 false None) eq_refl eq_refl eq_refl)
    as (Hd & Hs & _ & Hc).
  split; [exact Hd|]. split; [exact Hs | exact Hc].
Defined.

Lemma undo_redo_edges_witness :
  let stale := with_redoStack [Script.e5] Script.started in
  undo Script.started = Script.started /\
  redo Script.started = Script.started /\
  redo stale = with_redoStack [] stale /\
  canRedo (undo Script.after_f3) = true.
Proof.
  intros stale.
  destruct (undo_redo_edges Script.started) as (Hu & Hr & _ & _).
  destruct (undo_redo_edges stale) as (_ & _ & Hrej & _).
  destruct (undo_redo_edges Script.after_f3) as (_ & _ & _ & Hback).
  split; [apply Hu; reflexivity|].
  split; [apply Hr; reflexivity|].
  split; [apply (Hrej Script.e5 []); reflexivity|].
  apply (Hback Script.f3 (Script.mk Script.Standard [])).
  vm_compute. reflexivity.
Defined.

Lemma restart_restores_clock_witness :
  let spent := intervalFires Script.after_f3 in
  whiteTimeMs (reset spent) = 600000 /\
  blackTimeMs (loadFEN Script.studyFEN spent) = 600000 /\
  loadFEN "not a position" spent
  = with_effects (Alert "Invalid FEN" :: effects spent) spent.
Proof.
  intros spent.
  assert (Hb : baseMs spent = 600000) by (vm_compute; reflexivity).
  destruct (restart_restores_clock spent) as [Hok Hbad].
  split; [|split].
  - destruct (Hok (reset spent)) as (_ & _ & _ & _ & _ & Hw & _);
      [left; reflexivity|].
    rewrite Hw. exact Hb.
  - destruct (Hok (loadFEN Script.studyFEN spent))
      as (_ & _ & _ & _ & _ & _ & Hbl & _).
    + right. exists Script.studyFEN, (Script.mk Script.Study []).
      split; [vm_compute|]; reflexivity.
    + rewrite Hbl. exact Hb.
  - apply Hbad. vm_compute. reflexivity.
Defined.

Lemma highlights_reach_the_engine_witness :
  let picked := onSquareClick 0 "f2" Script.started in
  isLegalTarget "f3" picked = true /\
  exists target,
    Move.to target = "f3" /\
    onSquareClick 0 "f3" picked
    = if includes (Move.flags target) "p" then askPromotion target picked
      else applyTarget target picked.
Proof.
  intros picked.
  assert (Hl : isLegalTarget "f3" picked = true) by (vm_compute; reflexivity).
  split; [exact Hl|].
  assert (H1 : (0 <? suppressClickUntil picked) = false)
    by (vm_compute; reflexivity).
  assert (H2 : Promotion.ask (promotion picked) = false)
    by (vm_compute; reflexivity).
  assert (H3 : eng_isGameOver (game picked) = false)
    by (vm_compute; reflexivity).
  assert (H4 : gameOver picked = None) by (vm_compute; reflexivity).
  assert (H5 : running picked = true) by (vm_compute; reflexivity).
  assert (H6 : selected picked = Some "f2") by (vm_compute; reflexivity).
  assert (H7 : "f2" <> "f3") by discriminate.
  pose proof (proj2 (proj2 (highlights_reach_the_engine picked))
                0 "f2" "f3" H1 H2 H3 H4 H5 H6 H7 Hl) as Hclick.
  destruct Hclick as (target & _ & Hto & Hres).
  exists target. split; [exact Hto | exact Hres].
Defined.

Lemma formatTime_granularity_witness :
  formatTime (-50) = "-0.0s" /\
  formatTime 59999 = formatTime 59900 /\
  formatTime 61999 = formatTime 61000.
Proof.
  destruct (formatTime_granularity (-50)) as (Hneg & _ & _).
  destruct (formatTime_granularity 59999) as (_ & Htenths & _).
  destruct (formatTime_granularity 61999) as (_ & _ & Hsec).
  split; [apply Hneg; reflexivity|].
  split; [apply Htenths; discriminate | apply Hsec; discriminate].
Defined.

Lemma names_never_blank_witness :
  let over := gameOverTimeoutFires Script.after_mate in
  let typed := mkView false "  " "" true true false in
  winnerDisplay
    (endEdit (fun _ => "") White (endEdit (fun _ => "") Black typed)) over
  <> "".
Proof.
  intros over typed.
  apply (names_never_blank (fun _ => "") typed over
           (mkGameOver checkmate "by checkmate" (Some Black))).
  vm_compute. reflexivity.
Defined.

Lemma kingSquare_finds_the_king_witness :
  kingSquare (Script.board (game Script.after_f3)) Script.after_f3
  = Some "e8" /\
  exists row col : nat,
    squareName (Z.of_nat row) (Z.of_nat col) = Some "e8" /\
    isKingOf Black (Script.board (game Script.after_f3) row col) = true.
Proof.
  assert (Hk : kingSquare (Script.board (game Script.after_f3))
                 Script.after_f3 = Some "e8") by (vm_compute; reflexivity).
  split; [exact Hk|].
  destruct (kingSquare_finds_the_king (Script.board (game Script.after_f3))
              Script.after_f3) as [Hsome _].
  destruct (Hsome "e8" Hk) as (row & col & _ & Hn & Hking).
  exists row, col. split; [exact Hn | exact Hking].
Defined.

Lemma position_is_left_alone_witness :
  game (step AIntervalFires Script.after_f3) = game Script.after_f3 /\
  game (step (AClick 0 "e7") (pauseClocks Script.after_f3))
  = game (pauseClocks Script.after_f3).
Proof.
  split.
  - apply (position_is_left_alone AIntervalFires Script.after_f3).
    left. reflexivity.
  - apply (position_is_left_alone (AClick 0 "e7")
             (pauseClocks Script.after_f3)).
    right. split; [reflexivity | exact I].
Defined.
